(** * The GraphQL tool of the jobs agent: validation gate and query execution

    A shallow embedding of [GraphQLTool.execute_query] (src/agent.py, lines
    18-55) together with the properties its specification states about it.

    - [PyStr]: Python's [str] as a sequence of code points, with the string
      methods the tool calls ([count], [strip], [in], [len]).
    - [Json]: the decoded JSON values, and the decoder of response bodies
      with its limits on nesting and on the digits of an integer.
    - [Requests]: the part of the [requests] library the tool relies on
      (responses, [raise_for_status], the exception classes).
    - [Agent]: the effect monad (log records, HTTP posts, exceptions) and the
      tool itself. *)

From Stdlib Require Import List String Ascii NArith ZArith Bool Arith Lia.
From Stdlib Require Import DecimalString.
From ExtLib Require Import Structures.Monad Structures.MonadExc.
Import ListNotations.
Import MonadNotation.

Local Open Scope monad_scope.
Set Warnings "-register-all".

(* ===================================================================== *)
(** ** Python strings *)
(* ===================================================================== *)

Module PyStr.

(** A Python [str] is a sequence of Unicode code points. *)
Definition codepoint := N.
Definition str := list codepoint.

Definition ord (a : ascii) : codepoint := N_of_ascii a.

(** An ASCII string literal, as the source writes them, as a [str]. *)
Definition py (s : string) : str := map ord (list_ascii_of_string s).

(** [len(s)] *)
Definition len (s : str) : nat := List.length s.

(** [s.count(c)] for a one-character [c]: how many positions hold [c]. *)
Fixpoint count (s : str) (c : codepoint) : nat :=
  match s with
  | [] => 0
  | x :: s' => (if N.eqb x c then 1 else 0) + count s' c
  end.

(** [c in s] for a one-character [c]. *)
Fixpoint contains (s : str) (c : codepoint) : bool :=
  match s with
  | [] => false
  | x :: s' => N.eqb x c || contains s' c
  end.

(** The characters [str.strip()] removes: those for which [str.isspace]
    holds (CPython's [Py_UNICODE_ISSPACE]). *)
Definition isspace (c : codepoint) : bool :=
  ((9 <=? c) && (c <=? 13)           (* \t \n \v \f \r *)
   || (28 <=? c) && (c <=? 32)       (* FS GS RS US and the space *)
   || (c =? 133) || (c =? 160)       (* NEL, no-break space *)
   || (c =? 5760)                    (* U+1680 *)
   || (8192 <=? c) && (c <=? 8202)   (* U+2000 .. U+200A *)
   || (c =? 8232) || (c =? 8233)     (* U+2028, U+2029 *)
   || (c =? 8239) || (c =? 8287)     (* U+202F, U+205F *)
   || (c =? 12288))%N.               (* U+3000 *)

(** [s.lstrip()] *)
Fixpoint lstrip (s : str) : str :=
  match s with
  | [] => []
  | x :: s' => if isspace x then lstrip s' else s
  end.

(** [s.rstrip()] *)
Definition rstrip (s : str) : str := rev (lstrip (rev s)).

(** [s.strip()] *)
Definition strip (s : str) : str := rstrip (lstrip s).

(** [a == b] *)
Fixpoint eqb (a b : str) : bool :=
  match a, b with
  | [], [] => true
  | x :: a', y :: b' => N.eqb x y && eqb a' b'
  | _, _ => false
  end.

(** Truth value of a string: [not s] holds of the empty string only. *)
Definition truthy (s : str) : bool :=
  match s with [] => false | _ :: _ => true end.

(** [any(p(c) for c in s)] *)
Definition any (p : codepoint -> bool) (s : str) : bool := existsb p s.

End PyStr.

Import PyStr.

(* ===================================================================== *)
(** ** JSON values and the decoder of response bodies *)
(* ===================================================================== *)

Module Json.

(** What [json.loads] builds: [None], [bool], [int], [float], [str],
    [list] and [dict].  A [float] is kept as the text of its literal; a
    [dict] lists its items in insertion order. *)
Inductive value : Type :=
| JNull
| JBool (b : bool)
| JInt (z : Z)
| JFloat (lexeme : str)
| JString (s : str)
| JArray (items : list value)
| JObject (members : list (str * value)).

(** Why the decoder gives a text up before it has read it through: an
    object or array nested deeper than the recursion left allows
    ([RecursionError]), or an integer of more digits than [int] converts
    ([ValueError]). *)
Inductive abort : Type :=
| TooDeep
| IntTooLong (limit digits : nat).

(** Outcome of scanning a prefix of the text. *)
Inductive scan (A : Type) : Type :=
| Scanned (a : A) (rest : str)
| Invalid
| Aborted (why : abort)
| OutOfFuel.
Arguments Scanned {A} a rest.
Arguments Invalid {A}.
Arguments Aborted {A} why.
Arguments OutOfFuel {A}.

Definition dquote : codepoint := 34%N.
Definition backslash : codepoint := 92%N.

(** The decoder's whitespace: space, tab, line feed, carriage return. *)
Definition is_ws (c : codepoint) : bool :=
  ((c =? 32) || (c =? 9) || (c =? 10) || (c =? 13))%N.

Fixpoint skip_ws (s : str) : str :=
  match s with
  | c :: s' => if is_ws c then skip_ws s' else s
  | [] => []
  end.

(** [s.startswith(p)], returning what follows the prefix. *)
Fixpoint after_prefix (p s : str) : option str :=
  match p, s with
  | [], _ => Some s
  | a :: p', b :: s' => if N.eqb a b then after_prefix p' s' else None
  | _ :: _, [] => None
  end.

(** *** Strings *)

Definition hex_digit (c : codepoint) : option N :=
  (if (48 <=? c) && (c <=? 57) then Some (c - 48)
   else if (65 <=? c) && (c <=? 70) then Some (c - 55)
   else if (97 <=? c) && (c <=? 102) then Some (c - 87)
   else None)%N.

Definition hex4 (a b c d : codepoint) : option N :=
  match hex_digit a, hex_digit b, hex_digit c, hex_digit d with
  | Some x, Some y, Some z, Some w => Some (((x * 16 + y) * 16 + z) * 16 + w)%N
  | _, _, _, _ => None
  end.

Definition simple_escape (c : codepoint) : option codepoint :=
  (if c =? 34 then Some 34          (* quotation mark *)
   else if c =? 92 then Some 92     (* reverse solidus *)
   else if c =? 47 then Some 47     (* solidus *)
   else if c =? 98 then Some 8      (* b *)
   else if c =? 102 then Some 12    (* f *)
   else if c =? 110 then Some 10    (* n *)
   else if c =? 114 then Some 13    (* r *)
   else if c =? 116 then Some 9     (* t *)
   else None)%N.

(** The characters of a string literal up to its closing quote; each is
    paired with [true] when a [\u] escape produced it. *)
Fixpoint scan_chars (s : str) : scan (list (codepoint * bool)) :=
  match s with
  | [] => Invalid                                   (* unterminated *)
  | c :: s' =>
      if N.eqb c dquote then Scanned [] s'
      else if N.eqb c backslash then
        match s' with
        | [] => Invalid
        | e :: s'' =>
            if N.eqb e 117 then                     (* u and four hex digits *)
              match s'' with
              | h1 :: h2 :: h3 :: h4 :: s3 =>
                  match hex4 h1 h2 h3 h4 with
                  | Some u =>
                      match scan_chars s3 with
                      | Scanned l r => Scanned ((u, true) :: l) r
                      | other => other
                      end
                  | None => Invalid
                  end
              | _ => Invalid
              end
            else
              match simple_escape e with
              | Some x =>
                  match scan_chars s'' with
                  | Scanned l r => Scanned ((x, false) :: l) r
                  | other => other
                  end
              | None => Invalid
              end
        end
      else if N.ltb c 32 then Invalid               (* control character *)
      else
        match scan_chars s' with
        | Scanned l r => Scanned ((c, false) :: l) r
        | other => other
        end
  end.

(** Two adjacent [\u] escapes forming a surrogate pair denote one
    character. *)
Fixpoint join_surrogates (l : list (codepoint * bool)) : str :=
  match l with
  | [] => []
  | (hi, true) :: (((lo, true) :: l') as tl) =>
      if ((55296 <=? hi) && (hi <=? 56319) && (56320 <=? lo) && (lo <=? 57343))%N
      then (65536 + (hi - 55296) * 1024 + (lo - 56320))%N :: join_surrogates l'
      else hi :: join_surrogates tl
  | (c, _) :: tl => c :: join_surrogates tl
  end.

(** [scanstring], started after the opening quote. *)
Definition scanstring (s : str) : scan str :=
  match scan_chars s with
  | Scanned l r => Scanned (join_surrogates l) r
  | Invalid => Invalid
  | Aborted why => Aborted why
  | OutOfFuel => OutOfFuel
  end.

(** *** Numbers *)

Definition is_digit (c : codepoint) : bool := ((48 <=? c) && (c <=? 57))%N.

Fixpoint span_digits (s : str) : str * str :=
  match s with
  | c :: s' =>
      if is_digit c then let (ds, r) := span_digits s' in (c :: ds, r)
      else ([], s)
  | [] => ([], [])
  end.

Definition digits_value (ds : str) : Z :=
  fold_left (fun acc d => (acc * 10 + Z.of_N (d - 48))%Z) ds 0%Z.

(** The integer part of a number: [0], or a non-zero digit followed by
    digits. *)
Definition int_part (s : str) : option (str * str) :=
  match s with
  | c :: s' =>
      if N.eqb c 48 then Some ([c], s')
      else if is_digit c then Some (span_digits s)
      else None
  | [] => None
  end.

(** An optional fraction: a point and at least one digit. *)
Definition frac_part (s : str) : str * str :=
  match s with
  | c :: s' =>
      if N.eqb c 46 then
        match span_digits s' with
        | ([], _) => ([], s)
        | (ds, r) => (c :: ds, r)
        end
      else ([], s)
  | [] => ([], s)
  end.

(** An optional exponent: [e] or [E], an optional sign, at least one
    digit. *)
Definition exp_part (s : str) : str * str :=
  match s with
  | c :: s' =>
      if (N.eqb c 101 || N.eqb c 69)%bool then
        let (sign, s'') :=
          match s' with
          | x :: t => if (N.eqb x 43 || N.eqb x 45)%bool then ([x], t) else ([], s')
          | [] => ([], s')
          end in
        match span_digits s'' with
        | ([], _) => ([], s)
        | (ds, r) => (c :: sign ++ ds, r)
        end
      else ([], s)
  | [] => ([], s)
  end.

(** [int(text)] refuses a text of more than [max_digits] digits; the limit
    is [sys.get_int_max_str_digits()], where 0 stands for no limit, and
    texts of up to 640 digits are never refused. *)
Definition int_too_long (max_digits digits : nat) : bool :=
  (0 <? max_digits) && (640 <? digits) && (max_digits <? digits).

(** A number at the head of [s]: an [int] when it has neither fraction
    nor exponent, a [float] otherwise; [Invalid] when no number starts
    there. *)
Definition scan_number (max_digits : nat) (s : str) : scan value :=
  let (sign, s1) :=
    match s with
    | c :: s' => if N.eqb c 45 then ([c], s') else ([], s)
    | [] => ([], s)
    end in
  match int_part s1 with
  | None => Invalid
  | Some (ip, s2) =>
      let (fp, s3) := frac_part s2 in
      let (ep, s4) := exp_part s3 in
      match fp, ep with
      | [], [] =>
          if int_too_long max_digits (len ip)
          then Aborted (IntTooLong max_digits (len ip))
          else Scanned (JInt (match sign with
                              | [] => digits_value ip
                              | _ => - digits_value ip
                              end)%Z) s4
      | _, _ => Scanned (JFloat (sign ++ ip ++ fp ++ ep)) s4
      end
  end.

(** *** Values *)

(** [dict(pairs)]: a repeated key keeps its first position and takes the
    last value. *)
Fixpoint dict_set (d : list (str * value)) (k : str) (v : value)
  : list (str * value) :=
  match d with
  | [] => [(k, v)]
  | (k', v') :: d' =>
      if PyStr.eqb k' k then (k', v) :: d' else (k', v') :: dict_set d' k v
  end.

Definition dict (pairs : list (str * value)) : list (str * value) :=
  fold_left (fun d kv => dict_set d (fst kv) (snd kv)) pairs [].

Definition lift {A B : Type} (f : A -> B) (x : scan A) : scan B :=
  match x with
  | Scanned a r => Scanned (f a) r
  | Invalid => Invalid
  | Aborted why => Aborted why
  | OutOfFuel => OutOfFuel
  end.

(** Entering an object or an array takes one level of the recursion that
    is left; [None] stands for an unbounded recursion. *)
Definition descend (depth : option nat) : option (option nat) :=
  match depth with
  | None => Some None
  | Some O => None
  | Some (S d) => Some (Some d)
  end.

Section Scanner.

(** Whether [NaN], [Infinity] and [-Infinity] are read as values, as
    [json.loads] does, and the limit on the digits of an integer. *)
Variable constants : bool.
Variable max_digits : nat.

(** The words the scanner knows, tried in this order after strings,
    objects and arrays: [null], [true], [false], then a number, then
    [NaN], [Infinity] and [-Infinity]. *)
Definition scan_atom (s : str) : scan value :=
  match after_prefix (py "null") s with
  | Some r => Scanned JNull r
  | None =>
  match after_prefix (py "true") s with
  | Some r => Scanned (JBool true) r
  | None =>
  match after_prefix (py "false") s with
  | Some r => Scanned (JBool false) r
  | None =>
  match scan_number max_digits s with
  | Invalid =>
      if constants then
        match after_prefix (py "NaN") s with
        | Some r => Scanned (JFloat (py "NaN")) r
        | None =>
        match after_prefix (py "Infinity") s with
        | Some r => Scanned (JFloat (py "Infinity")) r
        | None =>
        match after_prefix (py "-Infinity") s with
        | Some r => Scanned (JFloat (py "-Infinity")) r
        | None => Invalid
        end end end
      else Invalid
  | number => number
  end end end end.

(** [scan_once] reads one value at the head of [s]; [scan_members] reads
    the items of an object from just after the opening quote of a key;
    [scan_items] reads the elements of a non-empty array.  [depth] is the
    nesting still allowed: an object or array met when none is left ends
    the scan, before anything inside it is read.  The recursion of the
    model is bounded by [fuel]. *)
Fixpoint scan_once (fuel : nat) (depth : option nat) (s : str) : scan value :=
  match fuel with
  | O => OutOfFuel
  | S fuel' =>
      match s with
      | [] => Invalid
      | c :: s' =>
          if N.eqb c dquote then lift JString (scanstring s')
          else if N.eqb c 123 then                      (* left brace *)
            match descend depth with
            | None => Aborted TooDeep
            | Some inner =>
                match skip_ws s' with
                | d :: s'' =>
                    if N.eqb d 125 then Scanned (JObject []) s''
                    else if N.eqb d dquote then
                      lift (fun pairs => JObject (dict pairs))
                           (scan_members fuel' inner s'' [])
                    else Invalid
                | [] => Invalid
                end
            end
          else if N.eqb c 91 then                       (* left bracket *)
            match descend depth with
            | None => Aborted TooDeep
            | Some inner =>
                match skip_ws s' with
                | d :: s'' =>
                    if N.eqb d 93 then Scanned (JArray []) s''
                    else lift JArray (scan_items fuel' inner (d :: s'') [])
                | [] => Invalid
                end
            end
          else scan_atom s
      end
  end

with scan_members (fuel : nat) (depth : option nat) (s : str)
    (acc : list (str * value)) : scan (list (str * value)) :=
  match fuel with
  | O => OutOfFuel
  | S fuel' =>
      match scanstring s with
      | Scanned key r =>
          match skip_ws r with
          | c :: r1 =>
              if N.eqb c 58 then                        (* colon *)
                match scan_once fuel' depth (skip_ws r1) with
                | Scanned v r2 =>
                    match skip_ws r2 with
                    | d :: r3 =>
                        if N.eqb d 125 then Scanned (acc ++ [(key, v)]) r3
                        else if N.eqb d 44 then         (* comma *)
                          match skip_ws r3 with
                          | q :: r4 =>
                              if N.eqb q dquote
                              then scan_members fuel' depth r4
                                                (acc ++ [(key, v)])
                              else Invalid
                          | [] => Invalid
                          end
                        else Invalid
                    | [] => Invalid
                    end
                | Invalid => Invalid
                | Aborted why => Aborted why
                | OutOfFuel => OutOfFuel
                end
              else Invalid
          | [] => Invalid
          end
      | Invalid => Invalid
      | Aborted why => Aborted why
      | OutOfFuel => OutOfFuel
      end
  end

with scan_items (fuel : nat) (depth : option nat) (s : str)
    (acc : list value) : scan (list value) :=
  match fuel with
  | O => OutOfFuel
  | S fuel' =>
      match scan_once fuel' depth s with
      | Scanned v r =>
          match skip_ws r with
          | d :: r1 =>
              if N.eqb d 93 then Scanned (acc ++ [v]) r1
              else if N.eqb d 44
              then scan_items fuel' depth (skip_ws r1) (acc ++ [v])
              else Invalid
          | [] => Invalid
          end
      | Invalid => Invalid
      | Aborted why => Aborted why
      | OutOfFuel => OutOfFuel
      end
  end.

End Scanner.

(** Fuel that always suffices for a text (see [scan_once_fuel]). *)
Definition enough (s : str) : nat := 2 * len s + 1.

(** How decoding a text ends: with its value, with the decoder's
    [JSONDecodeError], or given up at a limit. *)
Inductive outcome : Type :=
| Decoded (v : value)
| NotJSON
| Failed (why : abort).

(** One value, surrounded by optional whitespace and nothing else. *)
Definition run (constants : bool) (depth : option nat) (max_digits : nat)
    (text : str) : outcome :=
  let s := skip_ws text in
  match scan_once constants max_digits (enough s) depth s with
  | Scanned v r =>
      match skip_ws r with
      | [] => Decoded v
      | _ :: _ => NotJSON
      end
  | Invalid => NotJSON
  | Aborted why => Failed why
  | OutOfFuel => NotJSON
  end.

(** The limits of the interpreter a decoder runs in: the levels of
    recursion left to it, and [sys.get_int_max_str_digits()]. *)
Record limits : Type := { max_depth : nat; int_max_str_digits : nat }.

(** [json.loads(text)]. *)
Definition loads (lim : limits) (text : str) : outcome :=
  run true (Some (max_depth lim)) (int_max_str_digits lim) text.

(** Decoding [text] exceeds neither limit. *)
Definition within (lim : limits) (text : str) : bool :=
  match loads lim text with
  | Failed _ => false
  | Decoded _ | NotJSON => true
  end.

(** JSON as RFC 8259 defines it, and the value of a text that is JSON:
    the grammar above without the three constants, and without limits. *)
Definition rfc8259 (text : str) : option value :=
  match run false None 0 text with
  | Decoded v => Some v
  | NotJSON | Failed _ => None
  end.


(** Source text of a JSON document written with apostrophes in place of
    quotation marks. *)
Definition text (s : string) : str :=
  map (fun c => if N.eqb c 39 then dquote else c) (py s).

End Json.

(* ===================================================================== *)
(** ** The [requests] library, as far as the tool uses it *)
(* ===================================================================== *)

Module Requests.

(** What [requests.post] returns. *)
Record Response : Type := { status_code : Z; body : str }.

(** The ways [requests.post] itself fails; each is a subclass of
    [RequestException]. *)
Inductive failure : Type :=
| ConnectionError (cause : str)     (* name resolution, connection refused *)
| Timeout (cause : str)             (* connect or read timeout *)
| TooManyRedirects
| MissingSchema.

Inductive post_result : Type :=
| Raises (f : failure)
| Returns (r : Response).

(** [Response.raise_for_status]: an [HTTPError] for the client and
    server error classes, 400 to 599, and nothing otherwise. *)
Definition is_error_status (code : Z) : bool :=
  ((400 <=? code) && (code <? 500) || (500 <=? code) && (code <? 600))%Z.

End Requests.

(* ===================================================================== *)
(** ** The tool *)
(* ===================================================================== *)

Module Agent.
Import Requests.

(** The three ways validation rejects a query. *)
Inductive reason : Type :=
| UnbalancedBraces
| TooShortOrEmpty
| InvalidCharacters.

(** The text logged and raised for each of them. *)
Definition message (r : reason) : str :=
  match r with
  | UnbalancedBraces => py "Invalid GraphQL query: Unbalanced braces"
  | TooShortOrEmpty => py "Invalid GraphQL query: Query is empty or too short"
  | InvalidCharacters => py "Invalid GraphQL query: Contains invalid characters"
  end.

(** Exceptions that leave [execute_query].  When the body of a response
    is not JSON, [Response.json] raises a [JSONDecodeError]; whether that
    class derives from [RequestException] depends on the installed
    [requests], and the exception records which.  The decoder's own
    limits surface as [RecursionError] and as a [ValueError] of [int]. *)
Inductive exn : Type :=
| ValueError (msg : str)
| RequestFailure (f : failure)
| HTTPError (response : Response)
| JSONDecodeError (request_exception : bool)
| RecursionError.

(** [isinstance(e, requests.exceptions.RequestException)] *)
Definition is_RequestException (e : exn) : bool :=
  match e with
  | ValueError _ => false
  | RequestFailure _ => true
  | HTTPError _ => true
  | JSONDecodeError b => b
  | RecursionError => false
  end.

(** The message of the [ValueError] that [int] raises for a text of too
    many digits (wording of CPython 3.12). *)
Definition decimal (n : nat) : str := py (NilZero.string_of_uint (Nat.to_uint n)).

Definition int_limit_message (limit digits : nat) : str :=
  py "Exceeds the limit (" ++ decimal limit
    ++ py " digits) for integer string conversion: value has "
    ++ decimal digits
    ++ py " digits; use sys.set_int_max_str_digits() to increase the limit".

(** What surrounds a call: the endpoint behind [requests.post], the
    decoder behind [Response.json], and the class of its error. *)
Record world : Type := {
  post : str -> list (str * str) -> Json.value -> post_result;
  response_decoder : str -> Json.outcome;
  json_error_is_request_exception : bool
}.

(** The value [Response.json] returns for a body, when it returns. *)
Definition json (w : world) (b : str) : option Json.value :=
  match response_decoder w b with
  | Json.Decoded v => Some v
  | Json.NotJSON | Json.Failed _ => None
  end.

(** *** Effects *)

Inductive level : Type := INFO | ERROR.

Inductive record : Type :=
| Executing (query : str)           (* "Executing GraphQL query: {query}" *)
| Plain (text : str)
| GraphQLResponse (result : Json.value)   (* "GraphQL response: {result}" *)
| QueryFailed (e : exn).            (* "GraphQL query failed: {str(e)}" *)

(** What a run does, in order.  [Test r] marks that the condition of the
    [if] statement guarding rejection [r] was evaluated; it is a marker,
    the other two are effects of the program. *)
Inductive event : Type :=
| Test (r : reason)
| Log (l : level) (m : record)
| Post (url : str) (headers : list (str * str)) (payload : Json.value).

Inductive outcome (A : Type) : Type :=
| Return (a : A)
| Raise (e : exn).
Arguments Return {A} a.
Arguments Raise {A} e.

(** A computation: the events it performs and how it ends. *)
Definition M (A : Type) : Type := (list event * outcome A)%type.

Definition trace {A : Type} (m : M A) : list event := fst m.
Definition result {A : Type} (m : M A) : outcome A := snd m.

#[export] Instance Monad_M : Monad M := {
  ret := fun A (a : A) => ([], Return a);
  bind := fun A B (m : M A) (k : A -> M B) =>
    match m with
    | (t, Return a) => let (t', r) := k a in (t ++ t', r)
    | (t, Raise e) => (t, Raise e)
    end
}.

#[export] Instance Exc_M : MonadExc exn M := {
  raise := fun A (e : exn) => ([], Raise e);
  catch := fun A (m : M A) (h : exn -> M A) =>
    match m with
    | (t, Return a) => (t, Return a)
    | (t, Raise e) => let (t', r) := h e in (t ++ t', r)
    end
}.

Definition emit (e : event) : M unit := ([e], Return tt).

Definition logger_info (m : record) : M unit := emit (Log INFO m).
Definition logger_error (m : record) : M unit := emit (Log ERROR m).

(** [if cond: logger.error(msg); raise ValueError(msg)] *)
Definition reject_if (r : reason) (cond : bool) : M unit :=
  emit (Test r) ;;
  if cond then
    logger_error (Plain (message r)) ;;
    raise (ValueError (message r))
  else ret tt.

(** [try: body except requests.exceptions.RequestException as e: handler] *)
Definition try_except_RequestException {A : Type}
    (body : M A) (handler : exn -> M A) : M A :=
  catch body (fun e => if is_RequestException e then handler e else raise e).

Section Tool.
Variable w : world.

(** [requests.post(url, headers=headers, json=payload)] *)
Definition requests_post (url : str) (headers : list (str * str))
    (payload : Json.value) : M Response :=
  emit (Post url headers payload) ;;
  match post w url headers payload with
  | Raises f => raise (RequestFailure f)
  | Returns r => ret r
  end.

(** [response.raise_for_status()] *)
Definition raise_for_status (response : Response) : M unit :=
  if is_error_status (status_code response)
  then raise (HTTPError response)
  else ret tt.

(** [response.json()]: the decoded body; a [JSONDecodeError] for a body
    the decoder rejects; and, uncaught by [requests], the errors of the
    decoder's limits. *)
Definition response_json (response : Response) : M Json.value :=
  match response_decoder w (body response) with
  | Json.Decoded v => ret v
  | Json.NotJSON => raise (JSONDecodeError (json_error_is_request_exception w))
  | Json.Failed Json.TooDeep => raise RecursionError
  | Json.Failed (Json.IntTooLong limit digits) =>
      raise (ValueError (int_limit_message limit digits))
  end.

Record GraphQLTool : Type := { api_url : str }.

(** Lines 26-37: the validation gate. *)
Definition validate (query : str) : M unit :=
  reject_if UnbalancedBraces
    (negb (count query (ord "{") =? count query (ord "}"))) ;;
  reject_if TooShortOrEmpty
    (negb (truthy (strip query)) || (len (strip query) <? 10)) ;;
  reject_if InvalidCharacters
    (any (fun c => contains query c) (py "<>!@#$%^&*")).

(** Lines 22-55. *)
Definition execute_query (self : GraphQLTool) (query : str) : M Json.value :=
  logger_info (Executing query) ;;
  validate query ;;
  let headers := [(py "Content-Type", py "application/json")] in
  let payload := Json.JObject [(py "query", Json.JString query)] in
  try_except_RequestException
    (response <- requests_post (api_url self) headers payload ;;
     raise_for_status response ;;
     result <- response_json response ;;
     logger_info (GraphQLResponse result) ;;
     ret result)
    (fun e =>
       logger_error (QueryFailed e) ;;
       raise e).

End Tool.

End Agent.

Import Requests Agent.

(* ===================================================================== *)
(** ** Vocabulary of the specification *)
(* ===================================================================== *)

Definition lbrace : codepoint := ord "{".
Definition rbrace : codepoint := ord "}".

(** The disallowed characters. *)
Definition disallowed : str := py "<>!@#$%^&*".

(** Number of occurrences of a character in a string. *)
Definition occurrences (c : codepoint) (q : str) : nat := count_occ N.eq_dec q c.

(** The exception a rejection surfaces as. *)
Definition rejected (r : reason) : exn := ValueError (message r).

(** The specification's two execution errors, as classes of exceptions. *)
Definition is_TransportError (e : exn) : bool :=
  match e with
  | RequestFailure _ | HTTPError _ => true
  | ValueError _ | JSONDecodeError _ | RecursionError => false
  end.


(** How a rejection runs: the tests up to and including the failing one,
    then one ERROR record, then the exception. *)
Definition rejection (evaluated : list reason) (r : reason) : M unit :=
  (map Test evaluated ++ [Log ERROR (Plain (message r))], Raise (rejected r)).

(** The HTTP requests of a run: target, headers and JSON body of each. *)
Definition posts (t : list event) : list (str * list (str * str) * Json.value) :=
  flat_map (fun e => match e with Post u h p => [(u, h, p)] | _ => [] end) t.

(** The conditions a run evaluated, in order. *)
Definition tests (t : list event) : list reason :=
  flat_map (fun e => match e with Test r => [r] | _ => [] end) t.

(** The records a run logged at level ERROR. *)
Definition errors (t : list event) : list record :=
  flat_map (fun e => match e with Log ERROR m => [m] | _ => [] end) t.

(** The three checks in the words of section 4.1: each pairs the reason it
    gives with the condition under which it fails. *)
Definition spec_checks : list (reason * (str -> bool)) :=
  [ (UnbalancedBraces,
      fun q => negb (occurrences lbrace q =? occurrences rbrace q));
    (TooShortOrEmpty,
      fun q => match strip q with [] => true | _ :: _ => len (strip q) <? 10 end);
    (InvalidCharacters,
      fun q => existsb (fun c => if in_dec N.eq_dec c q then true else false)
                       disallowed) ].

(** Applying checks in order, first failure wins: the checks evaluated and
    the reason found, if any. *)
Fixpoint first_failure (cs : list (reason * (str -> bool))) (q : str)
  : list reason * option reason :=
  match cs with
  | [] => ([], None)
  | (r, fails) :: cs' =>
      if fails q then ([r], Some r)
      else let (evaluated, found) := first_failure cs' q in (r :: evaluated, found)
  end.

(** A properly nested brace sequence: no closing brace without an open one
    before it, and none left open at the end. *)
Fixpoint nested_from (depth : nat) (s : str) : bool :=
  match s with
  | [] => depth =? 0
  | c :: s' =>
      if N.eqb c lbrace then nested_from (S depth) s'
      else if N.eqb c rbrace then
        match depth with
        | O => false
        | S d => nested_from d s'
        end
      else nested_from depth s'
  end.

Definition properly_nested (s : str) : bool := nested_from 0 s.

(** The request the tool builds for a query. *)
Definition json_headers : list (str * str) :=
  [(py "Content-Type", py "application/json")].

Definition query_payload (q : str) : Json.value :=
  Json.JObject [(py "query", Json.JString q)].

(** The endpoint's answer to the tool's request for [q]. *)
Definition answer (w : world) (self : GraphQLTool) (q : str) : post_result :=
  post w (api_url self) json_headers (query_payload q).

(** The exception a limit of the decoder surfaces as. *)
Definition limit_error (why : Json.abort) : exn :=
  match why with
  | Json.TooDeep => RecursionError
  | Json.IntTooLong limit digits => ValueError (int_limit_message limit digits)
  end.

(** How the request of an accepted query ends: what follows the [Post] in
    the trace, and the outcome. *)
Definition exchange (w : world) (reply : post_result) : M Json.value :=
  match reply with
  | Raises f =>
      ([Log ERROR (QueryFailed (RequestFailure f))], Raise (RequestFailure f))
  | Returns r =>
      if is_error_status (status_code r)
      then ([Log ERROR (QueryFailed (HTTPError r))], Raise (HTTPError r))
      else
        match response_decoder w (body r) with
        | Json.Decoded v => ([Log INFO (GraphQLResponse v)], Return v)
        | Json.NotJSON =>
            let e := JSONDecodeError (json_error_is_request_exception w) in
            (if json_error_is_request_exception w
             then [Log ERROR (QueryFailed e)] else [],
             Raise e)
        | Json.Failed why => ([], Raise (limit_error why))
        end
  end.

(** A scan that ends, and leaves less than it was given. *)
Definition consumes {A : Type} (s : str) (x : Json.scan A) : Prop :=
  match x with
  | Json.Scanned _ r => len r < len s
  | Json.Invalid => True
  | Json.Aborted _ => True
  | Json.OutOfFuel => False
  end.

(** [y] is what [x] is, unless [x] was given up at a limit. *)
Definition unless_aborted {A : Type} (x y : Json.scan A) : Prop :=
  match x with
  | Json.Aborted _ => True
  | _ => y = x
  end.

(** [y] reads what [x] reads, when [x] reads a value. *)
Definition when_scanned {A : Type} (x y : Json.scan A) : Prop :=
  match x with
  | Json.Scanned a r => y = Json.Scanned a r
  | _ => True
  end.

(** The decoder of a world is Python's, run under the limits [lim]. *)
Definition python_decoder (lim : Json.limits) (w : world) : Prop :=
  forall b, response_decoder w b = Json.loads lim b.

(** *** Sample inputs *)

(** Limits as a default CPython sets them: a recursion limit of 1000, of
    which a call has less left, and 4300 digits. *)
Definition cpython_limits : Json.limits :=
  {| Json.max_depth := 1000; Json.int_max_str_digits := 4300 |}.

(** An endpoint that answers every request with the given status and body;
    bodies are decoded by [Json.loads]. *)
Definition endpoint (code : Z) (b : str) : world :=
  {| post := fun _ _ _ => Returns {| status_code := code; body := b |};
     response_decoder := Json.loads cpython_limits;
     json_error_is_request_exception := true |}.

(** An endpoint that refuses connections. *)
Definition unreachable : world :=
  {| post := fun _ _ _ => Raises (ConnectionError (py "Connection refused"));
     response_decoder := Json.loads cpython_limits;
     json_error_is_request_exception := true |}.

Definition jobs_api : GraphQLTool := {| api_url := py "http://localhost:4000/graphql" |}.

Definition jobs_body : str := Json.text "{'data':{'jobs':[]}}".

Definition jobs_mapping : Json.value :=
  Json.JObject [(py "data", Json.JObject [(py "jobs", Json.JArray [])])].

Definition titles_query : str := py "{ jobs { title } }".

(** A body that is one integer of 5000 digits, and one of 2000 arrays
    nested in one another: both are JSON. *)
Definition long_integer : str := repeat (ord "7") 5000.

Definition deep_arrays : str := repeat (ord "[") 2000 ++ repeat (ord "]") 2000.


(** An endpoint as [endpoint], seen through a [requests] whose
    [JSONDecodeError] is no [RequestException]. *)
Definition legacy_endpoint (code : Z) (b : str) : world :=
  {| post := fun _ _ _ => Returns {| status_code := code; body := b |};
     response_decoder := Json.loads cpython_limits;
     json_error_is_request_exception := false |}.

(** The record an exception is logged with when it is logged. *)
Definition error_record (e : exn) : record :=
  match e with
  | ValueError msg => Plain msg
  | _ => QueryFailed e
  end.

(** The log records of a run that show a query text. *)
Definition logged_queries (t : list event) : list str :=
  flat_map (fun e => match e with Log _ (Executing q) => [q] | _ => [] end) t.

(** The events of an accepted run up to and including its request. *)
Definition sent (self : GraphQLTool) (q : str) : list event :=
  Log INFO (Executing q)
    :: map Test [UnbalancedBraces; TooShortOrEmpty; InvalidCharacters]
    ++ [Post (api_url self) json_headers (query_payload q)].

(* ===================================================================== *)
(** ** String methods *)
(* ===================================================================== *)

Section StringFacts.

Lemma count_occurrences (s : str) (c : codepoint) :
  count s c = occurrences c s.
Proof.
  unfold occurrences.
  induction s as [|x s IH]; simpl; [reflexivity|].
  destruct (N.eq_dec x c) as [->|Hne].
  - rewrite N.eqb_refl, IH. reflexivity.
  - apply N.eqb_neq in Hne. rewrite Hne, IH. reflexivity.
Qed.

Lemma contains_In (s : str) (c : codepoint) :
  contains s c = true <-> In c s.
Proof.
  induction s as [|x s IH]; simpl.
  - split; [discriminate | tauto].
  - rewrite orb_true_iff, N.eqb_eq, IH. tauto.
Qed.

Lemma any_contains (q : str) (cs : str) :
  any (fun c => contains q c) cs = true <-> exists c, In c cs /\ In c q.
Proof.
  unfold any. rewrite existsb_exists.
  split; intros (c & Hc & Hq); exists c; split; trivial;
    now apply contains_In.
Qed.

Lemma truthy_len (s : str) : truthy s = negb (len s =? 0).
Proof. destruct s; reflexivity. Qed.

(** The second condition is a bound on the length alone: an empty string
    is shorter than ten characters. *)
Lemma too_short_iff (q : str) :
  negb (truthy (strip q)) || (len (strip q) <? 10) = true
  <-> len (strip q) < 10.
Proof.
  rewrite orb_true_iff, Nat.ltb_lt, truthy_len, negb_involutive, Nat.eqb_eq.
  lia.
Qed.

End StringFacts.

(* ===================================================================== *)
(** ** Stripping *)
(* ===================================================================== *)

Section Strip.

Lemma lstrip_spec (s : str) :
  exists a, s = a ++ lstrip s /\ forallb isspace a = true.
Proof.
  induction s as [|c s (a & E & W)]; simpl.
  - exists []. split; reflexivity.
  - destruct (isspace c) eqn:C.
    + exists (c :: a). simpl. rewrite C, W, <- E. split; reflexivity.
    + exists []. split; reflexivity.
Qed.

Lemma lstrip_head (s r : str) (c : codepoint) :
  lstrip s = c :: r -> isspace c = false.
Proof.
  induction s as [|x s IH]; simpl; [discriminate|].
  destruct (isspace x) eqn:X; [exact IH|].
  intros H. injection H as <- <-. exact X.
Qed.

(** Stripping on the left keeps the last character when that is no
    whitespace. *)
Lemma lstrip_snoc (s : str) (c : codepoint) :
  isspace c = false -> exists y, lstrip (s ++ [c]) = y ++ [c].
Proof.
  intros C. induction s as [|x s (y & IH)]; simpl.
  - rewrite C. exists []. reflexivity.
  - destruct (isspace x).
    + exists y. exact IH.
    + exists (x :: s). reflexivity.
Qed.

Lemma rstrip_spec (s : str) :
  exists b, s = rstrip s ++ b /\ forallb isspace b = true.
Proof.
  unfold rstrip. destruct (lstrip_spec (rev s)) as (a & E & W).
  exists (rev a). split.
  - rewrite <- rev_app_distr, <- E, rev_involutive. reflexivity.
  - rewrite forallb_forall in *. intros x Hx. apply W.
    now apply in_rev.
Qed.

Lemma rstrip_last (s r : str) (c : codepoint) :
  rev (rstrip s) = c :: r -> isspace c = false.
Proof.
  unfold rstrip. rewrite rev_involutive. apply lstrip_head.
Qed.

Lemma rstrip_head (s : str) (c : codepoint) :
  isspace c = false -> exists y, rstrip (c :: s) = c :: y.
Proof.
  intros C. unfold rstrip. simpl rev.
  destruct (lstrip_snoc (rev s) c C) as (y & E).
  exists (rev y). rewrite E, rev_app_distr. reflexivity.
Qed.

(** [strip] takes whitespace, and only whitespace, from both ends: what
    it leaves neither starts nor ends with whitespace. *)
Lemma strip_spec (s : str) :
  exists a b,
    s = a ++ strip s ++ b /\
    forallb isspace a = true /\ forallb isspace b = true /\
    (forall c r, strip s = c :: r -> isspace c = false) /\
    (forall c r, rev (strip s) = c :: r -> isspace c = false).
Proof.
  unfold strip.
  destruct (lstrip_spec s) as (a & Ea & Wa).
  destruct (rstrip_spec (lstrip s)) as (b & Eb & Wb).
  exists a, b. repeat split; trivial.
  - rewrite <- Eb. exact Ea.
  - intros c r H. destruct (lstrip s) as [|x t] eqn:L.
    + discriminate H.
    + pose proof (lstrip_head _ _ _ L) as X.
      destruct (rstrip_head t x X) as (y & E).
      rewrite E in H. congruence.
  - intros c r. apply rstrip_last.
Qed.

Lemma strip_len (s : str) : len (strip s) <= len s.
Proof.
  destruct (strip_spec s) as (a & b & E & _).
  rewrite E at 2. unfold len. rewrite !length_app. lia.
Qed.

End Strip.
(* ===================================================================== *)
(** ** The decoder: fuel, limits and the two grammars *)
(* ===================================================================== *)

Section DecoderFuel.
Import Json.

Lemma skip_ws_len (s : str) : len (skip_ws s) <= len s.
Proof.
  induction s as [|c s IH]; simpl; [lia|].
  destruct (is_ws c); simpl in *; lia.
Qed.

Lemma after_prefix_len (p : str) : forall s r,
  after_prefix p s = Some r -> len r + len p = len s.
Proof.
  induction p as [|a p IH]; intros [|b s] r H; simpl in *;
    try discriminate.
  - injection H as <-. simpl. lia.
  - injection H as <-. simpl. lia.
  - destruct (N.eqb a b); [|discriminate]. apply IH in H. lia.
Qed.

Lemma span_digits_len (s : str) : forall ds r,
  span_digits s = (ds, r) -> len ds + len r = len s.
Proof.
  induction s as [|c s IH]; intros ds r H; simpl in *.
  - injection H as <- <-. reflexivity.
  - destruct (is_digit c).
    + destruct (span_digits s) as [ds' r'] eqn:E.
      injection H as <- <-. specialize (IH _ _ eq_refl). simpl. lia.
    + injection H as <- <-. simpl. lia.
Qed.

Lemma int_part_len (s ip r : str) :
  int_part s = Some (ip, r) -> len r < len s.
Proof.
  destruct s as [|c s]; simpl; [discriminate|].
  destruct (N.eqb c 48).
  - intros H. injection H as <- <-. simpl. lia.
  - destruct (is_digit c) eqn:D; [|discriminate].
    destruct (span_digits s) as [ds r'] eqn:E.
    intros H. injection H as <- <-.
    apply span_digits_len in E. simpl. lia.
Qed.

Lemma frac_part_len (s fp r : str) :
  frac_part s = (fp, r) -> len r <= len s.
Proof.
  destruct s as [|c s]; simpl.
  - intros H. injection H as <- <-. simpl. lia.
  - destruct (N.eqb c 46).
    + destruct (span_digits s) as [[|d ds] r'] eqn:E;
        intros H; injection H as <- <-; simpl; [lia|].
      apply span_digits_len in E. simpl in E. lia.
    + intros H. injection H as <- <-. simpl. lia.
Qed.

Lemma exp_part_len (s ep r : str) :
  exp_part s = (ep, r) -> len r <= len s.
Proof.
  destruct s as [|c s]; simpl.
  - intros H. injection H as <- <-. simpl. lia.
  - destruct (N.eqb c 101 || N.eqb c 69).
    + assert (T : forall sign t, len t <= len s ->
                match span_digits t with
                | ([], _) => ([], c :: s)
                | (ds, r0) => (c :: sign ++ ds, r0)
                end = (ep, r) -> len r <= S (len s)).
      { intros sign t Ht. destruct (span_digits t) as [[|d ds] r'] eqn:E;
          intros H; injection H as <- <-; simpl; [lia|].
        apply span_digits_len in E. simpl in E. lia. }
      destruct s as [|x t]; [apply (T []); simpl; lia|].
      destruct (N.eqb x 43 || N.eqb x 45);
        [apply (T [x]) | apply (T [])]; simpl; lia.
    + intros H. injection H as <- <-. simpl. lia.
Qed.

(** A number, read under a limit or under none: the sign and what follows
    it. *)
Lemma scan_number_cases (m : nat) (s : str) :
  scan_number m s = Invalid \/
  (exists v r, scan_number m s = Scanned v r /\ len r < len s) \/
  (exists why, scan_number m s = Aborted why).
Proof.
  unfold scan_number.
  assert (T : forall sign s1, len s1 <= len s ->
    let x := match int_part s1 with
    | Some (ip, s2) =>
        let (fp, s3) := frac_part s2 in
        let (ep, s4) := exp_part s3 in
        match fp, ep with
        | [], [] =>
            if int_too_long m (len ip)
            then Aborted (IntTooLong m (len ip))
            else Scanned (JInt (match sign with
                                | [] => digits_value ip
                                | _ => - digits_value ip
                                end)%Z) s4
        | _, _ => Scanned (JFloat (sign ++ ip ++ fp ++ ep)) s4
        end
    | None => Invalid
    end in
    x = Invalid \/
    (exists v r, x = Scanned v r /\ len r < len s) \/
    (exists why, x = Aborted why)).
  { intros sign s1 H1.
    destruct (int_part s1) as [[ip s2]|] eqn:I; [|left; reflexivity].
    destruct (frac_part s2) as [fp s3] eqn:F.
    destruct (exp_part s3) as [ep s4] eqn:E.
    apply int_part_len in I. apply frac_part_len in F.
    apply exp_part_len in E. cbv zeta.
    destruct fp, ep; try (right; left; eexists; eexists; split;
                          [reflexivity | lia]).
    destruct (int_too_long m (len ip)).
    - right. right. eexists. reflexivity.
    - right. left. eexists. eexists. split; [reflexivity | lia]. }
  destruct s as [|c s']; [apply (T []); lia|].
  destruct (N.eqb c 45); [apply (T [c]) | apply (T [])]; simpl; lia.
Qed.

Lemma scan_number_consumes (m : nat) (s : str) : consumes s (scan_number m s).
Proof.
  destruct (scan_number_cases m s) as [H|[(v & r & H & L)|(why & H)]];
    rewrite H; simpl; trivial.
Qed.

Lemma scan_atom_consumes (c : bool) (m : nat) (s : str) :
  consumes s (scan_atom c m s).
Proof.
  unfold scan_atom.
  repeat match goal with
  | |- context [after_prefix ?p s] =>
      let E := fresh "E" in
      destruct (after_prefix p s) eqn:E;
      [apply after_prefix_len in E; simpl in *; lia|]
  end.
  pose proof (scan_number_consumes m s) as N.
  destruct (scan_number m s); try exact N.
  destruct c; [|exact I].
  repeat match goal with
  | |- context [after_prefix ?p s] =>
      let E := fresh "E" in
      destruct (after_prefix p s) eqn:E;
      [apply after_prefix_len in E; simpl in *; lia|]
  end.
  exact I.
Qed.

Lemma scan_chars_consumes : forall n s,
  len s <= n -> consumes s (scan_chars s).
Proof.
  induction n as [|n IH]; intros s Hn.
  - destruct s; [exact I | simpl in Hn; lia].
  - destruct s as [|c s1]; [exact I|]. cbn [scan_chars].
    assert (K : forall x t, len t <= len s1 ->
      consumes (c :: s1)
        (match scan_chars t with
         | Scanned l r => Scanned (x :: l) r
         | other => other
         end)).
    { intros x t Ht. assert (H : len t <= n) by (simpl in Hn; lia).
      apply IH in H. destruct (scan_chars t); simpl in *; lia || tauto. }
    destruct (N.eqb c dquote); [simpl; lia|].
    destruct (N.eqb c backslash).
    + destruct s1 as [|e s2]; [exact I|].
      destruct (N.eqb e 117).
      * destruct s2 as [|h1 [|h2 [|h3 [|h4 s3]]]]; try exact I.
        destruct (hex4 h1 h2 h3 h4); [|exact I].
        apply K. simpl. lia.
      * destruct (simple_escape e); [|exact I].
        apply K. simpl. lia.
    + destruct (N.ltb c 32); [exact I|]. apply K. lia.
Qed.

Lemma scanstring_consumes (s : str) : consumes s (scanstring s).
Proof.
  unfold scanstring.
  pose proof (scan_chars_consumes (len s) s (le_n _)) as H.
  destruct (scan_chars s); exact H.
Qed.

Lemma consumes_mono {A : Type} (s1 s2 : str) (x : scan A) :
  len s1 <= len s2 -> consumes s1 x -> consumes s2 x.
Proof. destruct x; simpl; [lia | trivial | trivial | trivial]. Qed.

Lemma consumes_lift {A B : Type} (f : A -> B) (s : str) (x : scan A) :
  consumes s x -> consumes s (lift f x).
Proof. destruct x; simpl; trivial. Qed.

(** What follows a skipped run of whitespace is no longer than the text. *)
Lemma skip_ws_cons (s r : str) (c : codepoint) :
  skip_ws s = c :: r -> len r < len s.
Proof.
  intros H. pose proof (skip_ws_len s) as L. rewrite H in L.
  simpl in L. lia.
Qed.

(** The scanners, one step unfolded. *)
Lemma scan_once_S (c : bool) (m fuel : nat) (depth : option nat) (s : str) :
  scan_once c m (S fuel) depth s =
    match s with
    | [] => Invalid
    | x :: s' =>
        if N.eqb x dquote then lift JString (scanstring s')
        else if N.eqb x 123 then
          match descend depth with
          | None => Aborted TooDeep
          | Some inner =>
              match skip_ws s' with
              | d :: s'' =>
                  if N.eqb d 125 then Scanned (JObject []) s''
                  else if N.eqb d dquote then
                    lift (fun pairs => JObject (dict pairs))
                         (scan_members c m fuel inner s'' [])
                  else Invalid
              | [] => Invalid
              end
          end
        else if N.eqb x 91 then
          match descend depth with
          | None => Aborted TooDeep
          | Some inner =>
              match skip_ws s' with
              | d :: s'' =>
                  if N.eqb d 93 then Scanned (JArray []) s''
                  else lift JArray (scan_items c m fuel inner (d :: s'') [])
              | [] => Invalid
              end
          end
        else scan_atom c m s
    end.
Proof. reflexivity. Qed.

Lemma scan_members_S (c : bool) (m fuel : nat) (depth : option nat)
    (s : str) (acc : list (str * value)) :
  scan_members c m (S fuel) depth s acc =
    match scanstring s with
    | Scanned key r =>
        match skip_ws r with
        | x :: r1 =>
            if N.eqb x 58 then
              match scan_once c m fuel depth (skip_ws r1) with
              | Scanned v r2 =>
                  match skip_ws r2 with
                  | d :: r3 =>
                      if N.eqb d 125 then Scanned (acc ++ [(key, v)]) r3
                      else if N.eqb d 44 then
                        match skip_ws r3 with
                        | q :: r4 =>
                            if N.eqb q dquote
                            then scan_members c m fuel depth r4
                                              (acc ++ [(key, v)])
                            else Invalid
                        | [] => Invalid
                        end
                      else Invalid
                  | [] => Invalid
                  end
              | Invalid => Invalid
              | Aborted why => Aborted why
              | OutOfFuel => OutOfFuel
              end
            else Invalid
        | [] => Invalid
        end
    | Invalid => Invalid
    | Aborted why => Aborted why
    | OutOfFuel => OutOfFuel
    end.
Proof. reflexivity. Qed.

Lemma scan_items_S (c : bool) (m fuel : nat) (depth : option nat)
    (s : str) (acc : list value) :
  scan_items c m (S fuel) depth s acc =
    match scan_once c m fuel depth s with
    | Scanned v r =>
        match skip_ws r with
        | d :: r1 =>
            if N.eqb d 93 then Scanned (acc ++ [v]) r1
            else if N.eqb d 44
            then scan_items c m fuel depth (skip_ws r1) (acc ++ [v])
            else Invalid
        | [] => Invalid
        end
    | Invalid => Invalid
    | Aborted why => Aborted why
    | OutOfFuel => OutOfFuel
    end.
Proof. reflexivity. Qed.

(** The three scanners end within their fuel once it exceeds twice the
    length of the text (by one more for the two loops), and a value they
    read is never empty. *)
Lemma scan_fuel (c : bool) (m : nat) : forall fuel,
  (forall d s, 2 * len s < fuel -> consumes s (scan_once c m fuel d s)) /\
  (forall d s acc, 2 * len s + 1 < fuel ->
     consumes s (scan_members c m fuel d s acc)) /\
  (forall d s acc, 2 * len s + 1 < fuel ->
     consumes s (scan_items c m fuel d s acc)).
Proof.
  induction fuel as [|fuel (IHonce & IHmembers & IHitems)].
  { repeat split; intros; lia. }
  split; [|split].
  - intros d [|x s'] Hf; [exact I|]. rewrite !scan_once_S. simpl in Hf.
    destruct (N.eqb x dquote).
    { apply consumes_lift.
      apply (consumes_mono s'); [simpl; lia | apply scanstring_consumes]. }
    destruct (N.eqb x 123).
    { destruct (descend d) as [inner|]; [|exact I].
      destruct (skip_ws s') as [|y s''] eqn:W; [exact I|].
      apply skip_ws_cons in W.
      destruct (N.eqb y 125); [simpl; lia|].
      destruct (N.eqb y dquote); [|exact I].
      apply consumes_lift. apply (consumes_mono s''); [simpl; lia|].
      apply IHmembers. lia. }
    destruct (N.eqb x 91).
    { destruct (descend d) as [inner|]; [|exact I].
      destruct (skip_ws s') as [|y s''] eqn:W; [exact I|].
      apply skip_ws_cons in W.
      destruct (N.eqb y 93); [simpl; lia|].
      apply consumes_lift. apply (consumes_mono (y :: s'')); [simpl; lia|].
      apply IHitems. simpl. lia. }
    apply scan_atom_consumes.
  - intros d s acc Hf. rewrite !scan_members_S.
    pose proof (scanstring_consumes s) as K.
    destruct (scanstring s) as [key r| | |]; [|exact I|exact I|exact K].
    simpl in K.
    destruct (skip_ws r) as [|x r1] eqn:W1; [exact I|].
    apply skip_ws_cons in W1.
    destruct (N.eqb x 58); [|exact I].
    pose proof (skip_ws_len r1) as L1.
    assert (O : consumes (skip_ws r1) (scan_once c m fuel d (skip_ws r1)))
      by (apply IHonce; lia).
    destruct (scan_once c m fuel d (skip_ws r1)) as [v r2| | |];
      [|exact I|exact I|exact O]. simpl in O.
    destruct (skip_ws r2) as [|y r3] eqn:W2; [exact I|].
    apply skip_ws_cons in W2.
    destruct (N.eqb y 125); [simpl; lia|].
    destruct (N.eqb y 44); [|exact I].
    destruct (skip_ws r3) as [|q r4] eqn:W3; [exact I|].
    apply skip_ws_cons in W3.
    destruct (N.eqb q dquote); [|exact I].
    apply (consumes_mono r4); [lia|]. apply IHmembers. lia.
  - intros d s acc Hf. rewrite !scan_items_S.
    assert (O : consumes s (scan_once c m fuel d s)) by (apply IHonce; lia).
    destruct (scan_once c m fuel d s) as [v r| | |];
      [|exact I|exact I|exact O].
    simpl in O.
    destruct (skip_ws r) as [|y r1] eqn:W; [exact I|].
    apply skip_ws_cons in W.
    destruct (N.eqb y 93); [simpl; lia|].
    destruct (N.eqb y 44); [|exact I].
    pose proof (skip_ws_len r1) as L.
    apply (consumes_mono (skip_ws r1)); [lia|]. apply IHitems. lia.
Qed.

(** [enough] is enough: a decoder answers that a text is not JSON on what
    the text is, never for want of fuel. *)
Lemma scan_once_fuel (c : bool) (m : nat) (d : option nat) (s : str) :
  scan_once c m (enough s) d s <> OutOfFuel.
Proof.
  intros H.
  assert (C : consumes s (scan_once c m (enough s) d s))
    by (apply scan_fuel; unfold enough; lia).
  rewrite H in C. exact C.
Qed.

(** *** A scan that meets no limit is the scan without limits *)

Lemma unless_aborted_refl {A : Type} (x : scan A) : unless_aborted x x.
Proof. destruct x; simpl; trivial. Qed.

Lemma unless_aborted_lift {A B : Type} (f : A -> B) (x y : scan A) :
  unless_aborted x y -> unless_aborted (lift f x) (lift f y).
Proof. destruct x; simpl; intros H; trivial; rewrite H; reflexivity. Qed.

Lemma int_too_long_unlimited (digits : nat) : int_too_long 0 digits = false.
Proof. reflexivity. Qed.

Lemma scan_number_unlimited (m : nat) (s : str) :
  unless_aborted (scan_number m s) (scan_number 0 s).
Proof.
  unfold scan_number.
  destruct (match s with
            | [] => ([], s)
            | c :: s' => if N.eqb c 45 then ([c], s') else ([], s)
            end) as [sign s1].
  destruct (int_part s1) as [[ip s2]|]; [|exact eq_refl].
  destruct (frac_part s2) as [fp s3]. destruct (exp_part s3) as [ep s4].
  destruct fp, ep; try exact eq_refl.
  rewrite int_too_long_unlimited.
  destruct (int_too_long m (len ip)); [exact I | exact eq_refl].
Qed.

Lemma scan_atom_unlimited (c : bool) (m : nat) (s : str) :
  unless_aborted (scan_atom c m s) (scan_atom c 0 s).
Proof.
  unfold scan_atom.
  destruct (after_prefix (py "null") s); [exact eq_refl|].
  destruct (after_prefix (py "true") s); [exact eq_refl|].
  destruct (after_prefix (py "false") s); [exact eq_refl|].
  pose proof (scan_number_unlimited m s) as N.
  destruct (scan_number m s); simpl in N; try rewrite N;
    try exact I; apply unless_aborted_refl.
Qed.

Lemma descend_unlimited : descend None = Some None.
Proof. reflexivity. Qed.

Lemma scan_unlimited (c : bool) (m : nat) : forall fuel,
  (forall d s,
     unless_aborted (scan_once c m fuel d s) (scan_once c 0 fuel None s)) /\
  (forall d s acc,
     unless_aborted (scan_members c m fuel d s acc)
                    (scan_members c 0 fuel None s acc)) /\
  (forall d s acc,
     unless_aborted (scan_items c m fuel d s acc)
                    (scan_items c 0 fuel None s acc)).
Proof.
  induction fuel as [|fuel (IHonce & IHmembers & IHitems)].
  { repeat split; intros; exact eq_refl. }
  split; [|split].
  - intros d [|x s']; [exact eq_refl|]. rewrite !scan_once_S.
    destruct (N.eqb x dquote); [apply unless_aborted_refl|].
    destruct (N.eqb x 123).
    { rewrite descend_unlimited.
      destruct (descend d) as [inner|]; [|exact I].
      destruct (skip_ws s') as [|y s'']; [exact eq_refl|].
      destruct (N.eqb y 125); [exact eq_refl|].
      destruct (N.eqb y dquote); [|exact eq_refl].
      apply unless_aborted_lift, IHmembers. }
    destruct (N.eqb x 91).
    { rewrite descend_unlimited.
      destruct (descend d) as [inner|]; [|exact I].
      destruct (skip_ws s') as [|y s'']; [exact eq_refl|].
      destruct (N.eqb y 93); [exact eq_refl|].
      apply unless_aborted_lift, IHitems. }
    apply scan_atom_unlimited.
  - intros d s acc. rewrite !scan_members_S.
    destruct (scanstring s) as [key r| | |]; try exact eq_refl; [|exact I].
    destruct (skip_ws r) as [|x r1]; [exact eq_refl|].
    destruct (N.eqb x 58); [|exact eq_refl].
    pose proof (IHonce d (skip_ws r1)) as O.
    destruct (scan_once c m fuel d (skip_ws r1)) as [v r2| | |];
      simpl in O; try rewrite O; try exact eq_refl; [|exact I].
    destruct (skip_ws r2) as [|y r3]; [exact eq_refl|].
    destruct (N.eqb y 125); [exact eq_refl|].
    destruct (N.eqb y 44); [|exact eq_refl].
    destruct (skip_ws r3) as [|q r4]; [exact eq_refl|].
    destruct (N.eqb q dquote); [|exact eq_refl].
    apply IHmembers.
  - intros d s acc. rewrite !scan_items_S.
    pose proof (IHonce d s) as O.
    destruct (scan_once c m fuel d s) as [v r| | |];
      simpl in O; try rewrite O; try exact eq_refl; [|exact I].
    destruct (skip_ws r) as [|y r1]; [exact eq_refl|].
    destruct (N.eqb y 93); [exact eq_refl|].
    destruct (N.eqb y 44); [|exact eq_refl].
    apply IHitems.
Qed.

(** *** What RFC 8259 reads, [json.loads] reads the same *)

Lemma when_scanned_refl {A : Type} (x : scan A) : when_scanned x x.
Proof. destruct x; simpl; trivial. Qed.

Lemma when_scanned_lift {A B : Type} (f : A -> B) (x y : scan A) :
  when_scanned x y -> when_scanned (lift f x) (lift f y).
Proof. destruct x; simpl; intros H; trivial; rewrite H; reflexivity. Qed.

Lemma scan_atom_constants (m : nat) (s : str) :
  when_scanned (scan_atom false m s) (scan_atom true m s).
Proof.
  unfold scan_atom.
  destruct (after_prefix (py "null") s); [exact eq_refl|].
  destruct (after_prefix (py "true") s); [exact eq_refl|].
  destruct (after_prefix (py "false") s); [exact eq_refl|].
  destruct (scan_number m s); simpl; trivial.
Qed.

Lemma scan_constants (m : nat) : forall fuel,
  (forall d s,
     when_scanned (scan_once false m fuel d s) (scan_once true m fuel d s)) /\
  (forall d s acc,
     when_scanned (scan_members false m fuel d s acc)
                  (scan_members true m fuel d s acc)) /\
  (forall d s acc,
     when_scanned (scan_items false m fuel d s acc)
                  (scan_items true m fuel d s acc)).
Proof.
  induction fuel as [|fuel (IHonce & IHmembers & IHitems)].
  { repeat split; intros; exact I. }
  split; [|split].
  - intros d [|x s']; [exact I|]. rewrite !scan_once_S.
    destruct (N.eqb x dquote); [apply when_scanned_refl|].
    destruct (N.eqb x 123).
    { destruct (descend d) as [inner|]; [|exact I].
      destruct (skip_ws s') as [|y s'']; [exact I|].
      destruct (N.eqb y 125); [exact eq_refl|].
      destruct (N.eqb y dquote); [|exact I].
      apply when_scanned_lift, IHmembers. }
    destruct (N.eqb x 91).
    { destruct (descend d) as [inner|]; [|exact I].
      destruct (skip_ws s') as [|y s'']; [exact I|].
      destruct (N.eqb y 93); [exact eq_refl|].
      apply when_scanned_lift, IHitems. }
    apply scan_atom_constants.
  - intros d s acc. rewrite !scan_members_S.
    destruct (scanstring s) as [key r| | |]; try exact I.
    destruct (skip_ws r) as [|x r1]; [exact I|].
    destruct (N.eqb x 58); [|exact I].
    pose proof (IHonce d (skip_ws r1)) as O.
    destruct (scan_once false m fuel d (skip_ws r1)) as [v r2| | |];
      simpl in O; try rewrite O; try exact I.
    destruct (skip_ws r2) as [|y r3]; [exact I|].
    destruct (N.eqb y 125); [exact eq_refl|].
    destruct (N.eqb y 44); [|exact I].
    destruct (skip_ws r3) as [|q r4]; [exact I|].
    destruct (N.eqb q dquote); [|exact I].
    apply IHmembers.
  - intros d s acc. rewrite !scan_items_S.
    pose proof (IHonce d s) as O.
    destruct (scan_once false m fuel d s) as [v r| | |];
      simpl in O; try rewrite O; try exact I.
    destruct (skip_ws r) as [|y r1]; [exact I|].
    destruct (N.eqb y 93); [exact eq_refl|].
    destruct (N.eqb y 44); [|exact I].
    apply IHitems.
Qed.

(** Decoding that meets no limit gives what the grammar gives. *)
Lemma loads_within (lim : limits) (text : str) :
  within lim text = true -> loads lim text = run true None 0 text.
Proof.
  unfold within, loads, run.
  pose proof (proj1 (scan_unlimited true (int_max_str_digits lim)
                       (enough (skip_ws text)))
                (Some (max_depth lim)) (skip_ws text)) as U.
  destruct (scan_once true (int_max_str_digits lim) (enough (skip_ws text))
              (Some (max_depth lim)) (skip_ws text)) as [v r| | |];
    simpl in U; try rewrite U; try reflexivity.
  discriminate.
Qed.

(** A text that is JSON is read by [json.loads]' grammar as the same
    value. *)
Lemma rfc8259_extended (text : str) (v : value) :
  rfc8259 text = Some v -> run true None 0 text = Decoded v.
Proof.
  unfold rfc8259, run.
  pose proof (proj1 (scan_constants 0 (enough (skip_ws text)))
                None (skip_ws text)) as C.
  destruct (scan_once false 0 (enough (skip_ws text)) None (skip_ws text))
    as [v' r| | |]; simpl in C; try discriminate.
  rewrite C. destruct (skip_ws r); [|discriminate].
  intros H. injection H as <-. reflexivity.
Qed.

(** JSON within the limits decodes to its value. *)
Lemma loads_rfc8259 (lim : limits) (text : str) (v : value) :
  rfc8259 text = Some v -> within lim text = true ->
  loads lim text = Decoded v.
Proof.
  intros J W. rewrite (loads_within lim text W).
  now apply rfc8259_extended.
Qed.


(** The decoder at work: a repeated key, numbers, escapes and a surrogate
    pair, nesting, and texts that are no JSON. *)
Lemma loads_examples :
  loads cpython_limits
    (Json.text " { 'a' : [1, -20, 0, 3.50e+2], 'b' : {'c': null}, 'a' : true } ")
  = Decoded
      (JObject [ (py "a", JBool true);
                 (py "b", JObject [(py "c", JNull)]) ]) /\
  loads cpython_limits (Json.text "[1205, -7, [false, []], 1E5, -0.5]")
  = Decoded
      (JArray [ JInt 1205; JInt (-7); JArray [JBool false; JArray []];
                JFloat (py "1E5"); JFloat (py "-0.5") ]) /\
  loads cpython_limits
    (Json.text "'tab\tquote\' \u00e9 \ud83d\ude00 \ud83d'")
  = Decoded
      (JString (py "tab" ++ [9%N] ++ py "quote" ++ [34%N; 32%N; 233%N; 32%N;
                128512%N; 32%N; 55357%N])) /\
  loads cpython_limits (Json.text "[1, 2,]") = NotJSON /\
  loads cpython_limits (Json.text "{'a': 1} x") = NotJSON /\
  loads cpython_limits (Json.text "{a: 1}") = NotJSON /\
  loads cpython_limits (Json.text "01") = NotJSON /\
  loads cpython_limits [] = NotJSON.
Proof. repeat split; vm_compute; reflexivity. Qed.

End DecoderFuel.

(* ===================================================================== *)
(** ** Running the validation gate *)
(* ===================================================================== *)

Lemma validate_cases (q : str) :
  validate q =
    if negb (count q lbrace =? count q rbrace)
    then rejection [UnbalancedBraces] UnbalancedBraces
    else if negb (truthy (strip q)) || (len (strip q) <? 10)
    then rejection [UnbalancedBraces; TooShortOrEmpty] TooShortOrEmpty
    else if any (fun c => contains q c) disallowed
    then rejection [UnbalancedBraces; TooShortOrEmpty; InvalidCharacters]
                   InvalidCharacters
    else (map Test [UnbalancedBraces; TooShortOrEmpty; InvalidCharacters],
          Return tt).
Proof.
  unfold validate, lbrace, rbrace, disallowed.
  destruct (negb (count q (ord "{") =? count q (ord "}"))); [reflexivity|].
  destruct (negb (truthy (strip q)) || (len (strip q) <? 10)); [reflexivity|].
  destruct (any (fun c => contains q c) (py "<>!@#$%^&*")); reflexivity.
Qed.

Lemma balanced_iff (q : str) :
  negb (count q lbrace =? count q rbrace) = false
  <-> occurrences lbrace q = occurrences rbrace q.
Proof.
  rewrite negb_false_iff, Nat.eqb_eq, !count_occurrences. reflexivity.
Qed.

Lemma message_injective (r r' : reason) : message r = message r' -> r = r'.
Proof. destruct r, r'; intros H; try reflexivity; discriminate H. Qed.

(** Validation ends in one of four ways. *)
Lemma validate_result (q : str) :
  result (validate q) = Return tt \/
  exists r, result (validate q) = Raise (rejected r).
Proof.
  rewrite validate_cases.
  destruct (negb _); [right; eexists; reflexivity|].
  destruct (_ || _); [right; eexists; reflexivity|].
  destruct (any _ _); [right; eexists; reflexivity | left; reflexivity].
Qed.

(** A run of validation never touches the network. *)
Lemma validate_no_post (q : str) : posts (trace (validate q)) = [].
Proof.
  rewrite validate_cases.
  destruct (negb _); [reflexivity|].
  destruct (_ || _); [reflexivity|].
  destruct (any _ _); reflexivity.
Qed.

Lemma validate_accepts (q : str) :
  occurrences lbrace q = occurrences rbrace q ->
  10 <= len (strip q) ->
  (forall c, In c disallowed -> ~ In c q) ->
  validate q =
    (map Test [UnbalancedBraces; TooShortOrEmpty; InvalidCharacters], Return tt).
Proof.
  intros Hb Hl Hc. rewrite validate_cases.
  apply balanced_iff in Hb. rewrite Hb.
  destruct (negb (truthy (strip q)) || (len (strip q) <? 10)) eqn:E.
  { apply too_short_iff in E. lia. }
  destruct (any (fun c => contains q c) disallowed) eqn:A; [|reflexivity].
  apply any_contains in A. destruct A as (c & Hd & Hq).
  exfalso. exact (Hc c Hd Hq).
Qed.

Lemma validate_accepts_inv (q : str) :
  result (validate q) = Return tt ->
  occurrences lbrace q = occurrences rbrace q /\
  10 <= len (strip q) /\
  (forall c, In c disallowed -> ~ In c q).
Proof.
  rewrite validate_cases.
  destruct (negb (count q lbrace =? count q rbrace)) eqn:B; [discriminate|].
  destruct (negb (truthy (strip q)) || (len (strip q) <? 10)) eqn:E;
    [discriminate|].
  destruct (any (fun c => contains q c) disallowed) eqn:A; [discriminate|].
  intros _. split; [now apply balanced_iff|]. split.
  - destruct (Nat.lt_ge_cases (len (strip q)) 10) as [Hlt|Hge]; [|exact Hge].
    apply too_short_iff in Hlt. congruence.
  - intros c Hd Hq.
    assert (any (fun c => contains q c) disallowed = true)
      by (apply any_contains; eauto).
    congruence.
Qed.

(* ===================================================================== *)
(** ** Running the tool *)
(* ===================================================================== *)

(** A rejected query: the exception of [validate] leaves [execute_query]
    as it is, after the tests and records of [validate]. *)
Lemma execute_query_rejected (w : world) (self : GraphQLTool) (q : str)
    (t : list event) (e : exn) :
  validate q = (t, Raise e) ->
  execute_query w self q = (Log INFO (Executing q) :: t, Raise e).
Proof.
  intros H. unfold execute_query. rewrite H. reflexivity.
Qed.

(** An accepted query: one request, then what the endpoint's answer leads
    to. *)
Lemma execute_query_accepted (w : world) (self : GraphQLTool) (q : str)
    (t : list event) :
  validate q = (t, Return tt) ->
  execute_query w self q =
    (Log INFO (Executing q) :: t
       ++ Post (api_url self) json_headers (query_payload q)
       :: trace (exchange w (answer w self q)),
     result (exchange w (answer w self q))).
Proof.
  intros H. unfold execute_query, answer, exchange. rewrite H.
  unfold try_except_RequestException, requests_post, raise_for_status,
    response_json, json_headers, query_payload.
  simpl.
  destruct (post w _ _ _) as [f|r]; simpl; [reflexivity|].
  destruct (is_error_status (status_code r)); simpl; [reflexivity|].
  destruct (response_decoder w (body r)) as [v| |[|limit digits]]; simpl;
    try reflexivity.
  destruct (json_error_is_request_exception w); reflexivity.
Qed.

Lemma validate_eta (q : str) :
  validate q = (trace (validate q), result (validate q)).
Proof. destruct (validate q); reflexivity. Qed.

Lemma posts_app (t1 t2 : list event) : posts (t1 ++ t2) = posts t1 ++ posts t2.
Proof. unfold posts. apply flat_map_app. Qed.

Lemma exchange_no_post (w : world) (reply : post_result) :
  posts (trace (exchange w reply)) = [].
Proof.
  destruct reply as [f|r]; simpl; [reflexivity|].
  destruct (is_error_status _); [reflexivity|].
  destruct (response_decoder w _) as [v| |why]; try reflexivity.
  destruct (json_error_is_request_exception w); reflexivity.
Qed.

Lemma accepted_result (w : world) (self : GraphQLTool) (q : str) :
  result (validate q) = Return tt ->
  result (execute_query w self q) = result (exchange w (answer w self q)).
Proof.
  intros H. rewrite (execute_query_accepted w self q (trace (validate q))).
  - reflexivity.
  - rewrite <- H. apply validate_eta.
Qed.

Lemma is_error_status_iff (code : Z) :
  is_error_status code = true <-> (400 <= code < 600)%Z.
Proof. unfold is_error_status. lia. Qed.

Lemma no_disallowed (q : str) :
  any (fun c => contains q c) disallowed = false ->
  forall c, In c disallowed -> ~ In c q.
Proof.
  intros H c Hd Hq.
  assert (any (fun c => contains q c) disallowed = true)
    by (apply any_contains; eauto).
  congruence.
Qed.

Lemma contains_in_dec (q : str) (c : codepoint) :
  contains q c = if in_dec N.eq_dec c q then true else false.
Proof.
  destruct (in_dec N.eq_dec c q) as [Hin|Hnin].
  - now apply contains_In.
  - destruct (contains q c) eqn:E; [|reflexivity].
    apply contains_In in E. contradiction.
Qed.

(** The checks of [spec_checks], run in order, in terms of the conditions
    the code evaluates. *)
Lemma first_failure_spec_checks (q : str) :
  first_failure spec_checks q =
    if negb (count q lbrace =? count q rbrace)
    then ([UnbalancedBraces], Some UnbalancedBraces)
    else if negb (truthy (strip q)) || (len (strip q) <? 10)
    then ([UnbalancedBraces; TooShortOrEmpty], Some TooShortOrEmpty)
    else if any (fun c => contains q c) disallowed
    then ([UnbalancedBraces; TooShortOrEmpty; InvalidCharacters],
          Some InvalidCharacters)
    else ([UnbalancedBraces; TooShortOrEmpty; InvalidCharacters], None).
Proof.
  unfold spec_checks. cbn [first_failure].
  rewrite <- !count_occurrences.
  destruct (negb (count q lbrace =? count q rbrace)); [reflexivity|].
  replace (match strip q with [] => true | _ :: _ => len (strip q) <? 10 end)
    with (negb (truthy (strip q)) || (len (strip q) <? 10))
    by (destruct (strip q); reflexivity).
  destruct (negb (truthy (strip q)) || (len (strip q) <? 10)); [reflexivity|].
  replace (existsb (fun c => if in_dec N.eq_dec c q then true else false)
                   disallowed)
    with (any (fun c => contains q c) disallowed).
  - destruct (any (fun c => contains q c) disallowed); reflexivity.
  - unfold any. induction disallowed as [|c cs IH]; simpl; [reflexivity|].
    rewrite IH, contains_in_dec. reflexivity.
Qed.

(** A properly nested string has as many opening as closing braces: the
    count comparison is necessary for nesting, not sufficient. *)
Lemma nested_from_counts (s : str) : forall depth,
  nested_from depth s = true ->
  depth + count s lbrace = count s rbrace.
Proof.
  induction s as [|c s IH]; intros depth H; cbn [nested_from count] in *.
  - apply Nat.eqb_eq in H. lia.
  - destruct (N.eqb_spec c lbrace) as [->|Hl].
    + apply IH in H. change (if (lbrace =? rbrace)%N then 1 else 0) with 0. lia.
    + destruct (N.eqb_spec c rbrace) as [->|Hr].
      * destruct depth as [|d]; [discriminate|]. apply IH in H. lia.
      * apply IH in H. lia.
Qed.

Lemma properly_nested_balanced (s : str) :
  properly_nested s = true -> occurrences lbrace s = occurrences rbrace s.
Proof.
  intros H. apply nested_from_counts in H.
  rewrite <- !count_occurrences. exact H.
Qed.

(* ===================================================================== *)
(** ** The validation gate *)
(* ===================================================================== *)

(** C2: validation applies the three checks in the order brace balance,
    non-triviality, disallowed characters; it evaluates them up to the
    first that fails and no further, gives the reason of that one, and
    logs that one rejection only. *)
Theorem validate_first_failure_wins (q : str) :
  tests (trace (validate q)) = fst (first_failure spec_checks q) /\
  result (validate q) =
    match snd (first_failure spec_checks q) with
    | Some r => Raise (rejected r)
    | None => Return tt
    end /\
  errors (trace (validate q)) =
    match snd (first_failure spec_checks q) with
    | Some r => [Plain (message r)]
    | None => []
    end.
Proof.
  rewrite validate_cases, first_failure_spec_checks.
  destruct (negb (count q lbrace =? count q rbrace)); [now repeat split|].
  destruct (negb (truthy (strip q)) || (len (strip q) <? 10));
    [now repeat split|].
  destruct (any (fun c => contains q c) disallowed); now repeat split.
Qed.

(** C4: a string in which the numbers of opening and closing braces differ
    is rejected with reason UnbalancedBraces. *)
Theorem unequal_braces_rejected (q : str) :
  occurrences lbrace q <> occurrences rbrace q ->
  result (validate q) = Raise (rejected UnbalancedBraces).
Proof.
  intros H. rewrite validate_cases.
  destruct (negb (count q lbrace =? count q rbrace)) eqn:B; [reflexivity|].
  apply balanced_iff in B. contradiction.
Qed.

Lemma unequal_braces_rejected_witness :
  result (validate (py "{jobs}}")) = Raise (rejected UnbalancedBraces).
Proof.
  apply (unequal_braces_rejected (py "{jobs}}")).
  vm_compute. discriminate.
Defined.

(** C3, as stated: the string made of one opening brace has trimmed length
    1, and is rejected for its braces, not for its length. *)
Lemma short_unbalanced_not_too_short :
  len (strip (py "{")) < 10 /\
  result (validate (py "{")) = Raise (rejected UnbalancedBraces) /\
  result (validate (py "{")) <> Raise (rejected TooShortOrEmpty).
Proof.
  split; [vm_compute; lia|].
  split; [reflexivity|].
  vm_compute. discriminate.
Qed.

(** C3, amended: a string with as many opening as closing braces whose
    trimmed length is below 10, the empty string included, is rejected
    with reason TooShortOrEmpty. *)
Theorem short_balanced_rejected (q : str) :
  occurrences lbrace q = occurrences rbrace q ->
  len (strip q) < 10 ->
  result (validate q) = Raise (rejected TooShortOrEmpty).
Proof.
  intros Hb Hl. rewrite validate_cases.
  apply balanced_iff in Hb. apply too_short_iff in Hl.
  rewrite Hb, Hl. reflexivity.
Qed.

Lemma short_balanced_rejected_witness :
  result (validate (py "{jobs}")) = Raise (rejected TooShortOrEmpty) /\
  result (validate []) = Raise (rejected TooShortOrEmpty).
Proof.
  split.
  - apply (short_balanced_rejected (py "{jobs}")); [reflexivity | vm_compute; lia].
  - apply (short_balanced_rejected []); [reflexivity | vm_compute; lia].
Defined.

(** C5: a string that contains one of the characters < > ! @ # $ % ^ & *,
    has as many opening as closing braces and has trimmed length at least
    10, is rejected with reason InvalidCharacters. *)
Theorem disallowed_character_rejected (q : str) (c : codepoint) :
  In c disallowed -> In c q ->
  occurrences lbrace q = occurrences rbrace q ->
  10 <= len (strip q) ->
  result (validate q) = Raise (rejected InvalidCharacters).
Proof.
  intros Hd Hq Hb Hl. rewrite validate_cases.
  apply balanced_iff in Hb. rewrite Hb.
  destruct (negb (truthy (strip q)) || (len (strip q) <? 10)) eqn:E.
  { apply too_short_iff in E. lia. }
  assert (A : any (fun c => contains q c) disallowed = true)
    by (apply any_contains; eauto).
  rewrite A. reflexivity.
Qed.

Lemma disallowed_character_rejected_witness :
  result (validate (py "{ jobs @skip { title } }"))
  = Raise (rejected InvalidCharacters).
Proof.
  apply (disallowed_character_rejected
           (py "{ jobs @skip { title } }") (ord "@")).
  - vm_compute. tauto.
  - vm_compute. tauto.
  - reflexivity.
  - vm_compute. lia.
Defined.

(** C10: the brace check compares the two counts and nothing else, so a
    string that starts with a closing brace and ends with an opening one,
    which is not properly nested, passes validation. *)
Theorem misnested_braces_accepted :
  (forall q, result (validate q) = Raise (rejected UnbalancedBraces)
             <-> occurrences lbrace q <> occurrences rbrace q) /\
  exists q,
    hd_error q = Some rbrace /\
    hd_error (rev q) = Some lbrace /\
    properly_nested q = false /\
    result (validate q) = Return tt.
Proof.
  split.
  - intros q. split.
    + intros H Hb. rewrite validate_cases in H.
      apply balanced_iff in Hb. rewrite Hb in H.
      destruct (_ || _) in H; [vm_compute in H; discriminate H|].
      destruct (any _ _) in H; vm_compute in H; discriminate H.
    + intros H. rewrite validate_cases.
      destruct (negb (count q lbrace =? count q rbrace)) eqn:B; [reflexivity|].
      apply balanced_iff in B. contradiction.
  - exists (py "} jobs title {"). repeat split.
Qed.

(* ===================================================================== *)
(** ** Execution *)
(* ===================================================================== *)

(** C1: a query that passes the three checks (as many opening as closing
    braces, trimmed length at least 10, none of the disallowed characters)
    is accepted, and the one HTTP request of the run goes to the configured
    endpoint with the JSON content type and the body mapping "query" to the
    input string as it was given. *)
Theorem valid_query_posted_unmodified
    (w : world) (self : GraphQLTool) (q : str) :
  occurrences lbrace q = occurrences rbrace q ->
  10 <= len (strip q) ->
  (forall c, In c disallowed -> ~ In c q) ->
  result (validate q) = Return tt /\
  posts (trace (execute_query w self q)) =
    [ (api_url self,
       [(py "Content-Type", py "application/json")],
       Json.JObject [(py "query", Json.JString q)]) ].
Proof.
  intros Hb Hl Hc.
  pose proof (validate_accepts q Hb Hl Hc) as V.
  split; [rewrite V; reflexivity|].
  rewrite (execute_query_accepted w self q _ V).
  cbn [trace fst]. change (?x :: ?t ++ ?l) with ((x :: t) ++ l).
  rewrite posts_app. cbn [posts flat_map app map].
  rewrite exchange_no_post. reflexivity.
Qed.

Lemma valid_query_posted_unmodified_witness :
  result (validate titles_query) = Return tt /\
  posts (trace (execute_query (endpoint 200 jobs_body) jobs_api titles_query)) =
    [ (py "http://localhost:4000/graphql",
       [(py "Content-Type", py "application/json")],
       Json.JObject [(py "query", Json.JString (py "{ jobs { title } }"))]) ].
Proof.
  apply (valid_query_posted_unmodified
           (endpoint 200 jobs_body) jobs_api titles_query).
  - reflexivity.
  - vm_compute. lia.
  - apply no_disallowed. reflexivity.
Defined.

(** C6: when validation rejects a query, [execute_query] raises that
    rejection, which carries one of the three reasons, and the run holds no
    HTTP request. *)
Theorem rejected_query_never_posted
    (w : world) (self : GraphQLTool) (q : str) (e : exn) :
  result (validate q) = Raise e ->
  result (execute_query w self q) = Raise e /\
  posts (trace (execute_query w self q)) = [] /\
  exists r, e = rejected r.
Proof.
  intros H.
  assert (V : validate q = (trace (validate q), Raise e))
    by (rewrite <- H; apply validate_eta).
  rewrite (execute_query_rejected w self q _ e V).
  split; [reflexivity|]. split.
  - cbn [trace fst]. change (posts (?x :: ?t)) with (posts t).
    apply validate_no_post.
  - destruct (validate_result q) as [R|[r R]]; rewrite R in H.
    + discriminate H.
    + exists r. congruence.
Qed.

Lemma rejected_query_never_posted_witness :
  result (execute_query (endpoint 200 jobs_body) jobs_api (py "{jobs}"))
    = Raise (rejected TooShortOrEmpty) /\
  posts (trace (execute_query (endpoint 200 jobs_body) jobs_api (py "{jobs}")))
    = [] /\
  exists r, rejected TooShortOrEmpty = rejected r.
Proof.
  apply (rejected_query_never_posted
           (endpoint 200 jobs_body) jobs_api (py "{jobs}")
           (rejected TooShortOrEmpty)).
  reflexivity.
Defined.

(** C7, as stated: an endpoint that answers 300 with a JSON body gives a
    status outside the 2xx class, and the call returns the decoded body. *)
Lemma non_2xx_status_returned :
  result (validate titles_query) = Return tt /\
  answer (endpoint 300 jobs_body) jobs_api titles_query
    = Returns {| status_code := 300; body := jobs_body |} /\
  ~ (200 <= 300 < 300)%Z /\
  result (execute_query (endpoint 300 jobs_body) jobs_api titles_query)
    = Return jobs_mapping.
Proof.
  split; [reflexivity|]. split; [reflexivity|]. split; [lia|].
  vm_compute. reflexivity.
Qed.

(** C7, amended: for a validated query, when [requests.post] fails at the
    transport level, or the response has a status from 400 to 599, the call
    fails with a TransportError: the exception of the failure, respectively
    an [HTTPError] holding the response and so its status. *)
Theorem transport_failure_raised
    (w : world) (self : GraphQLTool) (q : str) (e : exn) :
  result (validate q) = Return tt ->
  (exists f, answer w self q = Raises f /\ e = RequestFailure f) \/
  (exists r, answer w self q = Returns r /\
             (400 <= status_code r < 600)%Z /\ e = HTTPError r) ->
  result (execute_query w self q) = Raise e /\ is_TransportError e = true.
Proof.
  intros V H. rewrite (accepted_result w self q V).
  destruct H as [(f & A & ->) | (r & A & S & ->)]; rewrite A; simpl.
  - split; reflexivity.
  - apply is_error_status_iff in S. rewrite S. split; reflexivity.
Qed.

Lemma transport_failure_raised_witness :
  (result (execute_query (endpoint 500 (py "Internal Server Error"))
                         jobs_api titles_query)
   = Raise (HTTPError {| status_code := 500;
                         body := py "Internal Server Error" |}) /\
   is_TransportError (HTTPError {| status_code := 500;
                                   body := py "Internal Server Error" |}) = true)
  /\
  (result (execute_query unreachable jobs_api titles_query)
   = Raise (RequestFailure (ConnectionError (py "Connection refused"))) /\
   is_TransportError
     (RequestFailure (ConnectionError (py "Connection refused"))) = true).
Proof.
  split.
  - apply (transport_failure_raised
             (endpoint 500 (py "Internal Server Error")) jobs_api titles_query).
    + reflexivity.
    + right. eexists. split; [reflexivity|]. split; [simpl; lia | reflexivity].
  - apply (transport_failure_raised unreachable jobs_api titles_query).
    + reflexivity.
    + left. eexists. split; reflexivity.
Defined.




(** C9, as stated: a response of status 200 whose body is one integer of
    5000 digits, or 2000 arrays nested in one another, has a JSON body,
    and the call fails: with the [ValueError] of [int], and with a
    [RecursionError]. *)
Lemma json_body_not_returned :
  result (validate titles_query) = Return tt /\
  (Json.rfc8259 long_integer <> None /\
   exists msg,
     result (execute_query (endpoint 200 long_integer) jobs_api titles_query)
       = Raise (ValueError msg) /\
     forall r, ValueError msg <> rejected r) /\
  (Json.rfc8259 deep_arrays <> None /\
   result (execute_query (endpoint 200 deep_arrays) jobs_api titles_query)
     = Raise RecursionError).
Proof.
  split; [reflexivity|]. split; split.
  - vm_compute. discriminate.
  - exists (int_limit_message 4300 5000). split; [vm_compute; reflexivity|].
    intros r R. destruct r; vm_compute in R; discriminate R.
  - vm_compute. discriminate.
  - vm_compute. reflexivity.
Qed.

(** C9, amended: for a validated query, when the response has status 200
    and its body is JSON, and decoding it exceeds neither the nesting nor
    the integer limit of the decoder, the call returns the value of that
    JSON as it is; for the body {"data":{"jobs":[]}} that value is the
    mapping {"data": {"jobs": []}}. *)
Theorem decoded_response_returned
    (w : world) (self : GraphQLTool) (q : str) (r : Response)
    (lim : Json.limits) (v : Json.value) :
  result (validate q) = Return tt ->
  answer w self q = Returns r ->
  status_code r = 200%Z ->
  python_decoder lim w ->
  Json.rfc8259 (body r) = Some v ->
  Json.within lim (body r) = true ->
  result (execute_query w self q) = Return v /\
  (body r = Json.text "{'data':{'jobs':[]}}" ->
   result (execute_query w self q) =
     Return (Json.JObject
               [(py "data", Json.JObject [(py "jobs", Json.JArray [])])])).
Proof.
  intros V A S P J W.
  assert (R : result (execute_query w self q) = Return v).
  { rewrite (accepted_result w self q V), A. simpl.
    rewrite S, (P (body r)), (loads_rfc8259 lim (body r) v J W).
    reflexivity. }
  split; [exact R|].
  intros B. rewrite R. rewrite B in J.
  vm_compute in J. injection J as <-. reflexivity.
Qed.

Lemma decoded_response_returned_witness :
  result (execute_query (endpoint 200 jobs_body) jobs_api titles_query)
    = Return jobs_mapping /\
  result (execute_query (endpoint 200 jobs_body) jobs_api titles_query)
    = Return (Json.JObject
                [(py "data", Json.JObject [(py "jobs", Json.JArray [])])]).
Proof.
  destruct (decoded_response_returned
              (endpoint 200 jobs_body) jobs_api titles_query
              {| status_code := 200; body := jobs_body |}
              cpython_limits jobs_mapping)
    as [R P].
  - reflexivity.
  - reflexivity.
  - reflexivity.
  - intros b. reflexivity.
  - vm_compute. reflexivity.
  - vm_compute. reflexivity.
  - split; [exact R|]. apply P; reflexivity.
Defined.

(* ===================================================================== *)
(** ** Whitespace around a query, and its mirror image *)
(* ===================================================================== *)

Section Padding.

Lemma forallb_rev (p : codepoint -> bool) (s : str) :
  forallb p s = true -> forallb p (rev s) = true.
Proof.
  rewrite !forallb_forall. intros H x Hx. apply H. now apply in_rev.
Qed.

Lemma lstrip_space_app (a s : str) :
  forallb isspace a = true -> lstrip (a ++ s) = lstrip s.
Proof.
  induction a as [|x a IH]; simpl; [reflexivity|].
  intros H. apply andb_true_iff in H as [Hx Ha]. rewrite Hx. auto.
Qed.

Lemma lstrip_all_space (a : str) : forallb isspace a = true -> lstrip a = [].
Proof.
  intros H. rewrite <- (app_nil_r a). now rewrite lstrip_space_app.
Qed.

Lemma lstrip_nil (s : str) : lstrip s = [] -> forallb isspace s = true.
Proof.
  induction s as [|x s IH]; simpl; [reflexivity|].
  destruct (isspace x); [exact IH | discriminate].
Qed.

Lemma lstrip_app_keep (s b : str) :
  lstrip s <> [] -> lstrip (s ++ b) = lstrip s ++ b.
Proof.
  induction s as [|x s IH]; simpl; [contradiction|].
  destruct (isspace x); [exact IH | reflexivity].
Qed.

Lemma rstrip_app_space (s b : str) :
  forallb isspace b = true -> rstrip (s ++ b) = rstrip s.
Proof.
  intros H. unfold rstrip.
  rewrite rev_app_distr, lstrip_space_app; [reflexivity|].
  now apply forallb_rev.
Qed.

Lemma rstrip_all_space (a : str) : forallb isspace a = true -> rstrip a = [].
Proof.
  intros H. unfold rstrip. rewrite lstrip_all_space; [reflexivity|].
  now apply forallb_rev.
Qed.

Lemma rstrip_app_keep (a t : str) :
  rstrip t <> [] -> rstrip (a ++ t) = a ++ rstrip t.
Proof.
  unfold rstrip. intros H.
  rewrite rev_app_distr, lstrip_app_keep, rev_app_distr, rev_involutive.
  - reflexivity.
  - intros E. apply H. rewrite E. reflexivity.
Qed.

Lemma strip_pad (a q b : str) :
  forallb isspace a = true -> forallb isspace b = true ->
  strip (a ++ q ++ b) = strip q.
Proof.
  intros Ha Hb. unfold strip. rewrite lstrip_space_app by exact Ha.
  destruct (lstrip q) as [|c m] eqn:L.
  - apply lstrip_nil in L.
    rewrite lstrip_space_app, lstrip_all_space by assumption. reflexivity.
  - rewrite lstrip_app_keep, L by (rewrite L; discriminate).
    now apply rstrip_app_space.
Qed.

Lemma strip_all_space (q : str) : forallb isspace q = true -> strip q = [].
Proof.
  intros H. unfold strip. now rewrite lstrip_all_space.
Qed.

(** Stripping the two ends in either order gives the same string. *)
Lemma strip_comm (s : str) : rstrip (lstrip s) = lstrip (rstrip s).
Proof.
  destruct (lstrip_spec s) as (a & E & W).
  destruct (lstrip s) as [|c m] eqn:L.
  - rewrite app_nil_r in E. subst a.
    rewrite (rstrip_all_space s W). reflexivity.
  - pose proof (lstrip_head _ _ _ L) as C.
    destruct (rstrip_head m c C) as (y & R).
    rewrite E.
    rewrite rstrip_app_keep by (rewrite R; discriminate).
    rewrite lstrip_space_app by exact W.
    rewrite R. simpl. rewrite C. reflexivity.
Qed.

Lemma strip_rev (q : str) : strip (rev q) = rev (strip q).
Proof.
  unfold strip. rewrite strip_comm. unfold rstrip.
  rewrite !rev_involutive. reflexivity.
Qed.

Lemma count_app (s t : str) (c : codepoint) :
  count (s ++ t) c = count s c + count t c.
Proof. induction s as [|x s IH]; simpl; [reflexivity|]. rewrite IH. lia. Qed.

Lemma count_rev (s : str) (c : codepoint) : count (rev s) c = count s c.
Proof.
  induction s as [|x s IH]; simpl; [reflexivity|].
  rewrite count_app, IH. simpl. lia.
Qed.

Lemma count_space (a : str) (c : codepoint) :
  forallb isspace a = true -> isspace c = false -> count a c = 0.
Proof.
  intros Ha Hc. induction a as [|x a IH]; simpl in *; [reflexivity|].
  apply andb_true_iff in Ha as [Hx Ha].
  destruct (N.eqb_spec x c) as [->|_]; [congruence|]. now rewrite IH.
Qed.

Lemma count_pad (a q b : str) (c : codepoint) :
  forallb isspace a = true -> forallb isspace b = true ->
  isspace c = false ->
  count (a ++ q ++ b) c = count q c.
Proof.
  intros Ha Hb Hc.
  rewrite !count_app, (count_space a c Ha Hc), (count_space b c Hb Hc). lia.
Qed.

Lemma contains_app (s t : str) (c : codepoint) :
  contains (s ++ t) c = contains s c || contains t c.
Proof.
  induction s as [|x s IH]; simpl; [reflexivity|].
  rewrite IH. apply orb_assoc.
Qed.

Lemma contains_rev (s : str) (c : codepoint) :
  contains (rev s) c = contains s c.
Proof.
  induction s as [|x s IH]; simpl; [reflexivity|].
  rewrite contains_app, IH. simpl. rewrite orb_false_r. apply orb_comm.
Qed.

Lemma contains_space (a : str) (c : codepoint) :
  forallb isspace a = true -> isspace c = false -> contains a c = false.
Proof.
  intros Ha Hc. induction a as [|x a IH]; simpl in *; [reflexivity|].
  apply andb_true_iff in Ha as [Hx Ha].
  destruct (N.eqb_spec x c) as [->|_]; [congruence|]. now rewrite IH.
Qed.

Lemma contains_pad (a q b : str) (c : codepoint) :
  forallb isspace a = true -> forallb isspace b = true ->
  isspace c = false ->
  contains (a ++ q ++ b) c = contains q c.
Proof.
  intros Ha Hb Hc.
  rewrite !contains_app, (contains_space a c Ha Hc),
    (contains_space b c Hb Hc), orb_false_r.
  reflexivity.
Qed.

Lemma any_ext_in (p p' : codepoint -> bool) (cs : str) :
  (forall c, In c cs -> p c = p' c) -> any p cs = any p' cs.
Proof.
  unfold any. induction cs as [|c cs IH]; simpl; [reflexivity|].
  intros H. rewrite (H c), IH by auto. reflexivity.
Qed.

(** None of the disallowed characters, and neither brace, is whitespace. *)
Lemma disallowed_not_space (c : codepoint) :
  In c (py "<>!@#$%^&*") -> isspace c = false.
Proof.
  intros H.
  assert (A : forallb (fun c => negb (isspace c)) (py "<>!@#$%^&*") = true)
    by reflexivity.
  rewrite forallb_forall in A. apply A in H. now apply negb_true_iff.
Qed.

Lemma validate_pad (a q b : str) :
  forallb isspace a = true -> forallb isspace b = true ->
  validate (a ++ q ++ b) = validate q.
Proof.
  intros Ha Hb. unfold validate.
  rewrite !(count_pad a q b) by (assumption || reflexivity).
  rewrite (strip_pad a q b Ha Hb).
  rewrite (any_ext_in (fun c => contains (a ++ q ++ b) c)
                      (fun c => contains q c)); [reflexivity|].
  intros c Hc. apply contains_pad; try assumption.
  now apply disallowed_not_space.
Qed.

Lemma validate_rev (q : str) : validate (rev q) = validate q.
Proof.
  unfold validate. rewrite !count_rev, strip_rev.
  replace (truthy (rev (strip q))) with (truthy (strip q))
    by (rewrite !truthy_len; unfold len; now rewrite length_rev).
  replace (len (rev (strip q))) with (len (strip q))
    by (unfold len; now rewrite length_rev).
  rewrite (any_ext_in (fun c => contains (rev q) c)
                      (fun c => contains q c)); [reflexivity|].
  intros c _. apply contains_rev.
Qed.

End Padding.

(** X1: whitespace put before and after a query changes nothing about its
    validation: the padded string runs the same checks, and is accepted or
    rejected for the same reason, as the query itself. *)
Theorem padding_keeps_verdict (a q b : str) :
  forallb isspace a = true -> forallb isspace b = true ->
  tests (trace (validate (a ++ q ++ b))) = tests (trace (validate q)) /\
  result (validate (a ++ q ++ b)) = result (validate q).
Proof.
  intros Ha Hb. rewrite (validate_pad a q b Ha Hb). split; reflexivity.
Qed.

Lemma padding_keeps_verdict_witness :
  tests (trace (validate (py "  " ++ py "{jobs}" ++ py "        ")))
    = tests (trace (validate (py "{jobs}"))) /\
  result (validate (py "  " ++ py "{jobs}" ++ py "        "))
    = result (validate (py "{jobs}")).
Proof.
  apply (padding_keeps_verdict (py "  ") (py "{jobs}") (py "        "));
    reflexivity.
Defined.

(** X2: a string made of whitespace only, however long, is rejected with
    reason TooShortOrEmpty. *)
Theorem whitespace_only_rejected (q : str) :
  forallb isspace q = true ->
  result (validate q) = Raise (rejected TooShortOrEmpty).
Proof.
  intros H. rewrite validate_cases.
  unfold lbrace, rbrace.
  rewrite !(count_space q) by (assumption || reflexivity).
  rewrite (strip_all_space q H). reflexivity.
Qed.

Lemma whitespace_only_rejected_witness :
  result (validate (py "                    "))
    = Raise (rejected TooShortOrEmpty).
Proof.
  apply (whitespace_only_rejected (py "                    ")).
  reflexivity.
Defined.

(** X3: validation accepts a string exactly when it has as many opening
    as closing braces, trimmed length at least 10 and none of the
    disallowed characters. *)
Theorem accepted_iff (q : str) :
  result (validate q) = Return tt <->
  occurrences lbrace q = occurrences rbrace q /\
  10 <= len (strip q) /\
  (forall c, In c disallowed -> ~ In c q).
Proof.
  split.
  - apply validate_accepts_inv.
  - intros (Hb & Hl & Hc). rewrite (validate_accepts q Hb Hl Hc). reflexivity.
Qed.

(** X4: validation cannot tell a string from its mirror image: the string
    read backwards runs the same checks with the same outcome. *)
Theorem mirror_image_same_verdict (q : str) :
  tests (trace (validate (rev q))) = tests (trace (validate q)) /\
  result (validate (rev q)) = result (validate q).
Proof.
  rewrite validate_rev. split; reflexivity.
Qed.

(** X5: a properly nested string is never rejected for its braces. *)
Theorem properly_nested_passes_brace_check (q : str) :
  properly_nested q = true ->
  result (validate q) <> Raise (rejected UnbalancedBraces).
Proof.
  intros H R. apply properly_nested_balanced in H.
  rewrite validate_cases in R. apply balanced_iff in H. rewrite H in R.
  destruct (_ || _) in R; [vm_compute in R; discriminate R|].
  destruct (any _ _) in R; vm_compute in R; discriminate R.
Qed.

Lemma properly_nested_passes_brace_check_witness :
  result (validate titles_query) <> Raise (rejected UnbalancedBraces).
Proof.
  apply (properly_nested_passes_brace_check titles_query).
  reflexivity.
Defined.

(* ===================================================================== *)
(** ** Every outcome of a call, and what the log shows of it *)
(* ===================================================================== *)

Section Runs.

(** Validation runs all three tests and returns, or stops at a
    rejection. *)
Lemma validate_run (q : str) :
  validate q =
    (map Test [UnbalancedBraces; TooShortOrEmpty; InvalidCharacters],
     Return tt) \/
  exists evaluated r, validate q = rejection evaluated r.
Proof.
  rewrite validate_cases.
  destruct (negb _); [right; eauto|].
  destruct (_ || _); [right; eauto|].
  destruct (any _ _); [right; eauto | left; reflexivity].
Qed.

Lemma errors_app (t1 t2 : list event) :
  errors (t1 ++ t2) = errors t1 ++ errors t2.
Proof. unfold errors. apply flat_map_app. Qed.

Lemma logged_queries_app (t1 t2 : list event) :
  logged_queries (t1 ++ t2) = logged_queries t1 ++ logged_queries t2.
Proof. unfold logged_queries. apply flat_map_app. Qed.

Lemma tests_silent (evaluated : list reason) :
  errors (map Test evaluated) = [] /\
  logged_queries (map Test evaluated) = [] /\
  posts (map Test evaluated) = [].
Proof. induction evaluated; simpl; tauto. Qed.

(** What follows the request mentions no query text. *)
Lemma exchange_no_query (w : world) (reply : post_result) :
  logged_queries (trace (exchange w reply)) = [].
Proof.
  destruct reply as [f|r]; simpl; [reflexivity|].
  destruct (is_error_status _); [reflexivity|].
  destruct (response_decoder w _) as [v| |why]; try reflexivity.
  destruct (json_error_is_request_exception w); reflexivity.
Qed.

(** A rejected run, in full. *)
Lemma rejected_run (w : world) (self : GraphQLTool) (q : str)
    (evaluated : list reason) (r : reason) :
  validate q = rejection evaluated r ->
  execute_query w self q =
    ((Log INFO (Executing q) :: map Test evaluated)
       ++ [Log ERROR (Plain (message r))],
     Raise (rejected r)).
Proof. intros V. exact (execute_query_rejected w self q _ _ V). Qed.

(** An accepted run, in full. *)
Lemma accepted_run (w : world) (self : GraphQLTool) (q : str) :
  validate q =
    (map Test [UnbalancedBraces; TooShortOrEmpty; InvalidCharacters],
     Return tt) ->
  execute_query w self q =
    (sent self q ++ trace (exchange w (answer w self q)),
     result (exchange w (answer w self q))).
Proof.
  intros V. rewrite (execute_query_accepted w self q _ V).
  reflexivity.
Qed.

Lemma not_error_status (code : Z) :
  is_error_status code = false <-> ~ (400 <= code < 600)%Z.
Proof. unfold is_error_status. lia. Qed.

End Runs.

(** X6: a call returns a value only when the query passed validation and
    the endpoint answered with a status outside 400-599 and a body that
    decodes; the value returned is that decoding. *)
Theorem returned_value_is_decoded_body
    (w : world) (self : GraphQLTool) (q : str) (v : Json.value) :
  result (execute_query w self q) = Return v ->
  result (validate q) = Return tt /\
  exists r, answer w self q = Returns r /\
            ~ (400 <= status_code r < 600)%Z /\
            json w (body r) = Some v.
Proof.
  intros H. destruct (validate_run q) as [V|(ev & r & V)].
  - split; [rewrite V; reflexivity|].
    rewrite (accepted_run w self q V) in H. cbn [result snd] in H.
    destruct (answer w self q) as [f|r]; simpl in H; [discriminate H|].
    destruct (is_error_status (status_code r)) eqn:S; [discriminate H|].
    unfold json.
    destruct (response_decoder w (body r)) as [v'| |why] eqn:J;
      simpl in H; try discriminate H.
    injection H as <-. exists r.
    split; [reflexivity|]. split; [now apply not_error_status|].
    rewrite J. reflexivity.
  - rewrite (rejected_run w self q ev r V) in H. discriminate H.
Qed.

Lemma returned_value_is_decoded_body_witness :
  result (validate titles_query) = Return tt /\
  exists r, answer (endpoint 200 jobs_body) jobs_api titles_query = Returns r /\
            ~ (400 <= status_code r < 600)%Z /\
            json (endpoint 200 jobs_body) (body r) = Some jobs_mapping.
Proof.
  apply (returned_value_is_decoded_body
           (endpoint 200 jobs_body) jobs_api titles_query jobs_mapping).
  vm_compute. reflexivity.
Defined.

(** X7: an exception that leaves a call tells its cause.  A rejection
    comes from validation, and then nothing was sent.  The exception of a
    failed request comes from [requests.post] failing so, after the query
    was accepted.  An [HTTPError] holds the response the endpoint gave,
    whose status is from 400 to 599.  A [JSONDecodeError] means that the
    endpoint answered with another status and a body the decoder
    rejected. *)
Theorem raised_exception_causes
    (w : world) (self : GraphQLTool) (q : str) (e : exn) :
  result (execute_query w self q) = Raise e ->
  (forall r, e = rejected r ->
     result (validate q) = Raise e /\
     posts (trace (execute_query w self q)) = []) /\
  (forall f, e = RequestFailure f ->
     result (validate q) = Return tt /\ answer w self q = Raises f) /\
  (forall r, e = HTTPError r ->
     result (validate q) = Return tt /\ answer w self q = Returns r /\
     (400 <= status_code r < 600)%Z) /\
  (forall b, e = JSONDecodeError b ->
     result (validate q) = Return tt /\
     b = json_error_is_request_exception w /\
     exists r, answer w self q = Returns r /\
               ~ (400 <= status_code r < 600)%Z /\
               response_decoder w (body r) = Json.NotJSON).
Proof.
  intros H. destruct (validate_run q) as [V|(ev & r & V)].
  - rewrite (accepted_run w self q V) in H. cbn [result snd] in H.
    assert (A : result (validate q) = Return tt) by (rewrite V; reflexivity).
    destruct (answer w self q) as [f|r]; simpl in H.
    { injection H as <-. repeat split; try (intros; discriminate).
      - exact A.
      - congruence. }
    destruct (is_error_status (status_code r)) eqn:S; simpl in H.
    { injection H as <-. repeat split; try (intros; discriminate);
        try exact A; try congruence.
      + assert (r0 = r) as -> by congruence.
        apply is_error_status_iff in S. lia.
      + assert (r0 = r) as -> by congruence.
        apply is_error_status_iff in S. lia. }
    destruct (response_decoder w (body r)) as [v| |[|limit digits]] eqn:J;
      simpl in H; try discriminate H; injection H as <-.
    + repeat split; try (intros; discriminate); try exact A; try congruence.
      exists r. split; [reflexivity|].
      split; [now apply not_error_status | exact J].
    + repeat split; intros; discriminate.
    + split; [|repeat split; intros; discriminate].
      intros r0 R. destruct r0; vm_compute in R; discriminate R.
  - rewrite (rejected_run w self q ev r V) in *. rewrite V.
    cbn [result snd trace fst] in *. injection H as <-.
    split; [|repeat split; intros; discriminate].
    intros r0 _. split; [reflexivity|].
    rewrite posts_app.
    change (posts (?x :: map Test ev)) with (posts (map Test ev)).
    destruct (tests_silent ev) as (_ & _ & ->). reflexivity.
Qed.

Lemma raised_exception_causes_witness :
  (forall r, HTTPError {| status_code := 503; body := [] |} = rejected r ->
     result (validate titles_query)
       = Raise (HTTPError {| status_code := 503; body := [] |}) /\
     posts (trace (execute_query (endpoint 503 []) jobs_api titles_query))
       = []) /\
  (forall f, HTTPError {| status_code := 503; body := [] |} = RequestFailure f ->
     result (validate titles_query) = Return tt /\
     answer (endpoint 503 []) jobs_api titles_query = Raises f) /\
  (forall r, HTTPError {| status_code := 503; body := [] |} = HTTPError r ->
     result (validate titles_query) = Return tt /\
     answer (endpoint 503 []) jobs_api titles_query = Returns r /\
     (400 <= status_code r < 600)%Z) /\
  (forall b, HTTPError {| status_code := 503; body := [] |} = JSONDecodeError b ->
     result (validate titles_query) = Return tt /\
     b = json_error_is_request_exception (endpoint 503 []) /\
     exists r, answer (endpoint 503 []) jobs_api titles_query = Returns r /\
               ~ (400 <= status_code r < 600)%Z /\
               response_decoder (endpoint 503 []) (body r) = Json.NotJSON).
Proof.
  apply (raised_exception_causes (endpoint 503 []) jobs_api titles_query
           (HTTPError {| status_code := 503; body := [] |})).
  reflexivity.
Defined.

(** X8: a call that fails with the rejection of validation or with a
    [RequestException] writes exactly one ERROR record, for that exception,
    as the last thing it does before the exception leaves. *)
Theorem failure_logged_once_and_last
    (w : world) (self : GraphQLTool) (q : str) (e : exn) :
  result (execute_query w self q) = Raise e ->
  is_RequestException e = true \/ result (validate q) = Raise e ->
  exists t,
    trace (execute_query w self q) = t ++ [Log ERROR (error_record e)] /\
    errors t = [].
Proof.
  intros H C. destruct (validate_run q) as [V|(ev & r & V)].
  - assert (R : is_RequestException e = true).
    { destruct C as [C|C]; [exact C|]. rewrite V in C. discriminate C. }
    rewrite (accepted_run w self q V) in *. cbn [result snd trace fst] in *.
    exists (sent self q). split; [|reflexivity]. f_equal.
    destruct (answer w self q) as [f|r]; simpl in H |- *.
    + injection H as <-. reflexivity.
    + destruct (is_error_status (status_code r)); simpl in H |- *.
      * injection H as <-. reflexivity.
      * destruct (response_decoder w (body r)) as [v| |[|limit digits]];
          simpl in H |- *; try discriminate H; injection H as <-;
          try discriminate R.
        simpl in R. rewrite R. reflexivity.
  - rewrite (rejected_run w self q ev r V) in *. cbn [result snd trace fst] in *.
    injection H as <-. eexists. split; [reflexivity|].
    change (errors (?x :: map Test ev)) with (errors (map Test ev)).
    apply tests_silent.
Qed.

Lemma failure_logged_once_and_last_witness :
  (exists t,
     trace (execute_query (endpoint 500 (py "Internal Server Error"))
                          jobs_api titles_query)
     = t ++ [Log ERROR
               (error_record
                  (HTTPError {| status_code := 500;
                                body := py "Internal Server Error" |}))] /\
     errors t = []) /\
  (exists t,
     trace (execute_query (endpoint 200 jobs_body) jobs_api (py "{jobs}"))
     = t ++ [Log ERROR (error_record (rejected TooShortOrEmpty))] /\
     errors t = []).
Proof.
  split.
  - apply (failure_logged_once_and_last
             (endpoint 500 (py "Internal Server Error")) jobs_api titles_query
             (HTTPError {| status_code := 500;
                           body := py "Internal Server Error" |})).
    + reflexivity.
    + left. reflexivity.
  - apply (failure_logged_once_and_last
             (endpoint 200 jobs_body) jobs_api (py "{jobs}")
             (rejected TooShortOrEmpty)).
    + reflexivity.
    + right. reflexivity.
Defined.

(** X9: a call that returns a value wrote no ERROR record, and the last
    thing it did was to log that value at INFO. *)
Theorem success_logs_response
    (w : world) (self : GraphQLTool) (q : str) (v : Json.value) :
  result (execute_query w self q) = Return v ->
  errors (trace (execute_query w self q)) = [] /\
  exists t,
    trace (execute_query w self q) = t ++ [Log INFO (GraphQLResponse v)].
Proof.
  intros H. destruct (validate_run q) as [V|(ev & r & V)].
  - rewrite (accepted_run w self q V) in *. cbn [result snd trace fst] in *.
    assert (E : trace (exchange w (answer w self q))
                = [Log INFO (GraphQLResponse v)]).
    { destruct (answer w self q) as [f|r]; simpl in H |- *; [discriminate H|].
      destruct (is_error_status (status_code r)); simpl in H |- *;
        [discriminate H|].
      destruct (response_decoder w (body r)) as [v'| |why];
        simpl in H |- *; try discriminate H.
      injection H as <-. reflexivity. }
    rewrite E. split; [reflexivity|]. exists (sent self q). reflexivity.
  - rewrite (rejected_run w self q ev r V) in H. discriminate H.
Qed.

Lemma success_logs_response_witness :
  errors (trace (execute_query (endpoint 200 jobs_body) jobs_api titles_query))
    = [] /\
  exists t,
    trace (execute_query (endpoint 200 jobs_body) jobs_api titles_query)
    = t ++ [Log INFO (GraphQLResponse jobs_mapping)].
Proof.
  apply (success_logs_response
           (endpoint 200 jobs_body) jobs_api titles_query jobs_mapping).
  vm_compute. reflexivity.
Defined.

(** X10: every call, whether the query is then accepted or rejected,
    starts by logging the query text as it was given, at INFO, and logs it
    that once. *)
Theorem query_logged_first_and_once
    (w : world) (self : GraphQLTool) (q : str) :
  hd_error (trace (execute_query w self q)) = Some (Log INFO (Executing q)) /\
  logged_queries (trace (execute_query w self q)) = [q].
Proof.
  destruct (validate_run q) as [V|(ev & r & V)].
  - rewrite (accepted_run w self q V). cbn [trace fst].
    split; [reflexivity|].
    rewrite logged_queries_app, exchange_no_query. reflexivity.
  - rewrite (rejected_run w self q ev r V). cbn [trace fst].
    split; [reflexivity|].
    rewrite logged_queries_app.
    change (logged_queries (?x :: map Test ev))
      with (q :: logged_queries (map Test ev)).
    destruct (tests_silent ev) as (_ & -> & _). reflexivity.
Qed.

(** X11: the handler catches [RequestException] only: where the
    decoder's error is no [RequestException], a body that does not decode
    makes the call fail without any ERROR record. *)
Theorem foreign_decode_error_unlogged
    (w : world) (self : GraphQLTool) (q : str) :
  result (execute_query w self q) = Raise (JSONDecodeError false) ->
  errors (trace (execute_query w self q)) = [].
Proof.
  intros H. destruct (validate_run q) as [V|(ev & r & V)].
  - rewrite (accepted_run w self q V) in *. cbn [result snd trace fst] in *.
    rewrite errors_app. change (errors (sent self q)) with (@nil record).
    destruct (answer w self q) as [f|r]; simpl in H |- *; [discriminate H|].
    destruct (is_error_status (status_code r)); simpl in H |- *;
      [discriminate H|].
    destruct (response_decoder w (body r)) as [v| |[|limit digits]];
      simpl in H |- *; try discriminate H.
    destruct (json_error_is_request_exception w); [discriminate H|].
    reflexivity.
  - rewrite (rejected_run w self q ev r V) in H. discriminate H.
Qed.

Lemma foreign_decode_error_unlogged_witness :
  errors (trace (execute_query (legacy_endpoint 200 (py "<html>"))
                               jobs_api titles_query)) = [].
Proof.
  apply (foreign_decode_error_unlogged
           (legacy_endpoint 200 (py "<html>")) jobs_api titles_query).
  vm_compute. reflexivity.
Defined.

(** X12: the errors of the decoder's limits are no [RequestException]:
    when the decoder gives a body up for its nesting or for the digits of
    an integer, the call fails with the [RecursionError] or the
    [ValueError] of [int], after the request was sent and without any
    ERROR record. *)
Theorem decoder_limit_error_unlogged
    (w : world) (self : GraphQLTool) (q : str) (r : Response)
    (why : Json.abort) :
  result (validate q) = Return tt ->
  answer w self q = Returns r ->
  ~ (400 <= status_code r < 600)%Z ->
  response_decoder w (body r) = Json.Failed why ->
  result (execute_query w self q) = Raise (limit_error why) /\
  is_RequestException (limit_error why) = false /\
  errors (trace (execute_query w self q)) = [] /\
  posts (trace (execute_query w self q))
    = [(api_url self, json_headers, query_payload q)].
Proof.
  intros V A S J. destruct (validate_run q) as [V'|(ev & r' & V')];
    [|rewrite V' in V; discriminate V].
  rewrite (accepted_run w self q V'). cbn [result snd trace fst].
  apply not_error_status in S.
  rewrite A. simpl. rewrite S, J. simpl.
  repeat split. destruct why; reflexivity.
Qed.

Lemma decoder_limit_error_unlogged_witness :
  result (execute_query (endpoint 200 long_integer) jobs_api titles_query)
    = Raise (limit_error (Json.IntTooLong 4300 5000)) /\
  is_RequestException (limit_error (Json.IntTooLong 4300 5000)) = false /\
  errors (trace (execute_query (endpoint 200 long_integer)
                               jobs_api titles_query)) = [] /\
  posts (trace (execute_query (endpoint 200 long_integer)
                              jobs_api titles_query))
    = [(api_url jobs_api, json_headers, query_payload titles_query)].
Proof.
  apply (decoder_limit_error_unlogged
           (endpoint 200 long_integer) jobs_api titles_query
           {| status_code := 200; body := long_integer |}
           (Json.IntTooLong 4300 5000)).
  - reflexivity.
  - reflexivity.
  - simpl. lia.
  - vm_compute. reflexivity.
Defined.
